(** * cloudflare_ratelimit: reconciliation of Cloudflare rate-limit rules

    A shallow embedding of [library/cloudflare_ratelimit.py]: the Python
    values the module passes around, the exceptions it raises and catches,
    the CloudFlare client as an interface, the class [CF_API] and [main]. *)

From Stdlib Require Import String Ascii ZArith List Bool Lia.
From Stdlib Require Import DecimalString DecimalPos.
Import ListNotations.
Open Scope string_scope.
Open Scope Z_scope.

(** ** Python values *)

(** The JSON-shaped values the module handles: what the CloudFlare client
    returns and what the module sends.  A dict is a list of bindings in which
    the first binding of a key is the live one. *)
#[warnings="-register-all"] Inductive pyval : Type :=
| PNone
| PBool (b : bool)
| PInt (z : Z)
| PStr (s : string)
| PList (l : list pyval)
| PDict (d : list (string * pyval)).

Fixpoint lookup (k : string) (d : list (string * pyval)) : option pyval :=
  match d with
  | [] => None
  | (k', v) :: d' => if String.eqb k k' then Some v else lookup k d'
  end.

Definition has_key (d : list (string * pyval)) (k : string) : bool :=
  match lookup k d with Some _ => true | None => false end.

Definition bool_int (b : bool) : Z := if b then 1 else 0.

(** Comparison of lists and of dicts, given the comparison of their
    elements.  Two lists are equal when they have the same length and equal
    elements.  A dict [da] is equal to [db] when each key of [da] is bound in
    [db] to an equal value ([eq_bindings]; [seen] holds the keys already met,
    whose later bindings are dead) and each key of [db] is a key of [da]. *)
Section Compare.

Variable eqv : pyval -> pyval -> bool.

Fixpoint eq_list (la lb : list pyval) {struct la} : bool :=
  match la, lb with
  | [], [] => true
  | x :: la', y :: lb' => eqv x y && eq_list la' lb'
  | _, _ => false
  end.

Fixpoint eq_bindings (db : list (string * pyval)) (seen : list string)
    (l : list (string * pyval)) {struct l} : bool :=
  match l with
  | [] => true
  | (k, v) :: l' =>
      (if existsb (String.eqb k) seen then true
       else match lookup k db with
            | Some w => eqv v w
            | None => false
            end)
      && eq_bindings db (k :: seen) l'
  end.

End Compare.

(** Python's [==].  Booleans are integers ([True == 1]); lists compare
    element by element; dicts compare as maps, whatever the order of the
    bindings. *)
Fixpoint py_eq (a b : pyval) {struct a} : bool :=
  match a, b with
  | PNone, PNone => true
  | PBool x, PBool y => Bool.eqb x y
  | PBool x, PInt y => Z.eqb (bool_int x) y
  | PInt x, PBool y => Z.eqb x (bool_int y)
  | PInt x, PInt y => Z.eqb x y
  | PStr x, PStr y => String.eqb x y
  | PList la, PList lb => eq_list py_eq la lb
  | PDict da, PDict db =>
      eq_bindings py_eq db [] da
      && forallb (fun kv => has_key da (fst kv)) db
  | _, _ => false
  end.

(** Python's [!=] on these values is the negation of [==]. *)
Definition py_ne (a b : pyval) : bool := negb (py_eq a b).

(** Truth value of an object, as [if x] and [x and y] test it. *)
Definition truthy (v : pyval) : bool :=
  match v with
  | PNone => false
  | PBool b => b
  | PInt z => negb (Z.eqb z 0)
  | PStr s => negb (String.eqb s "")
  | PList l => match l with [] => false | _ => true end
  | PDict d => match d with [] => false | _ => true end
  end.

(** ** Exceptions and results *)

(** What the module's two exits hand to Ansible. *)
Inductive module_output : Type :=
| ExitJson (changed : bool) (results : option pyval)
| FailJson (msg : string).

Inductive exn : Type :=
| KeyError (k : string)
| TypeError
| IndexError
| ValueError
| CloudFlareAPIError (msg : string)
| UserWarning (msg : string)
| SystemExit (out : module_output).

Inductive result (A : Type) : Type :=
| Ok (a : A)
| Raise (e : exn).
Arguments Ok {A} a.
Arguments Raise {A} e.

Definition rbind {A B} (r : result A) (k : A -> result B) : result B :=
  match r with
  | Ok a => k a
  | Raise e => Raise e
  end.

Declare Scope result_scope.
Delimit Scope result_scope with result.
Notation "x <- c ;; k" := (rbind c (fun x => k))
  (at level 61, c at next level, right associativity) : result_scope.

(** [v[k]] with a string key: a dict looks the key up and raises [KeyError];
    every other value raises [TypeError] (a list or a string does not take a
    string index, the others do not take an index at all). *)
Definition getitem (v : pyval) (k : string) : result pyval :=
  match v with
  | PDict d => match lookup k d with
               | Some x => Ok x
               | None => Raise (KeyError k)
               end
  | _ => Raise TypeError
  end.

(** [l[0]] on a list. *)
Definition first_item {A} (l : list A) : result A :=
  match l with
  | x :: _ => Ok x
  | [] => Raise IndexError
  end.

(** ** The CloudFlare client *)

(** How [CloudFlare.CloudFlare] was constructed: with an explicit e-mail and
    token, or from the ambient configuration. *)
Inductive client : Type :=
| WithCredentials (email token : string)
| Ambient.

(** The four endpoints the module uses.  The remote service is a state [St]
    that every request may read and change; every request answers with a
    value or raises. *)
Class CloudFlare (St : Type) : Type := {
  zones_get : client -> string -> St -> result (list pyval) * St;
  rate_limits_get : client -> pyval -> St -> result (list pyval) * St;
  rate_limits_post : client -> pyval -> pyval -> St -> result pyval * St;
  rate_limits_put :
    client -> pyval -> pyval -> pyval -> St -> result pyval * St
}.

(** The requests sent, in the order they were sent. *)
Inductive call : Type :=
| ZonesGet (name : string)
| RateLimitsGet (zoneid : pyval)
| RateLimitsPost (zoneid data : pyval)
| RateLimitsPut (zoneid id data : pyval).

Definition is_mutating (c : call) : bool :=
  match c with
  | RateLimitsPost _ _ | RateLimitsPut _ _ _ => true
  | _ => false
  end.

Definition is_list_call (c : call) : bool :=
  match c with RateLimitsGet _ => true | _ => false end.

Definition is_create (c : call) : bool :=
  match c with RateLimitsPost _ _ => true | _ => false end.

Definition is_update (c : call) : bool :=
  match c with RateLimitsPut _ _ _ => true | _ => false end.

Definition count (p : call -> bool) (t : list call) : nat :=
  List.length (List.filter p t).

Section Program.

Context {St : Type} `{CF : CloudFlare St}.

(** The world a run acts on: the remote service and the trace of requests. *)
Record world : Type := World { remote : St; trace : list call }.

(** Computations of the module: they thread the world and may raise. *)
Definition M (A : Type) : Type := world -> result A * world.

Definition ret {A} (a : A) : M A := fun w => (Ok a, w).

Definition raise {A} (e : exn) : M A := fun w => (Raise e, w).

Definition bind {A B} (m : M A) (k : A -> M B) : M B :=
  fun w => match m w with
           | (Ok a, w') => k a w'
           | (Raise e, w') => (Raise e, w')
           end.

Definition lift {A} (r : result A) : M A := fun w => (r, w).

(** [try: m except ...: h e]; [h] answers [None] for an exception that no
    clause catches. *)
Definition try_except {A} (m : M A) (h : exn -> option (M A)) : M A :=
  fun w => match m w with
           | (Ok a, w') => (Ok a, w')
           | (Raise e, w') => match h e with
                              | Some k => k w'
                              | None => (Raise e, w')
                              end
           end.

(** One request: the service answers and the request is appended to the
    trace. *)
Definition request {A} (c : call) (f : St -> result A * St) : M A :=
  fun w => let (r, s') := f (remote w) in
           (r, World s' (trace w ++ [c])).

End Program.

Declare Scope M_scope.
Delimit Scope M_scope with M.
Notation "x <- c ;; k" := (bind c (fun x => k))
  (at level 61, c at next level, right associativity) : M_scope.
Notation "c ;;; k" := (bind c (fun _ => k))
  (at level 61, right associativity) : M_scope.

Arguments World {St} remote trace.
Arguments remote {St} w.
Arguments trace {St} w.

(** ** Module constants *)

Definition DEFAULT_ERROR_MSG : string :=
  "<error>This request has been rate-limited.</error>".
Definition THRESHOLD_MIN : Z := 2.
Definition PERIOD_MIN : Z := 2.
Definition THRESHOLD_MAX : Z := 1000000.
Definition PERIOD_MAX : Z := 86400.

(** [str(n)] of an integer. *)
Definition str_Z (z : Z) : string := NilEmpty.string_of_int (Z.to_int z).

(** ** class CF_API *)

Record CF_API : Type := { cf : client; zoneid : pyval }.

(** [email and api], both arguments being a string or [None]. *)
Definition both_given (email api : option string) : option (string * string) :=
  match email, api with
  | Some e, Some a =>
      if truthy (PStr e) && truthy (PStr a) then Some (e, a) else None
  | _, _ => None
  end.

(** [CloudFlare.CloudFlare(email=email, token=api)] when both are given,
    [CloudFlare.CloudFlare()] otherwise. *)
Definition make_client (email api : option string) : client :=
  match both_given email api with
  | Some (e, a) => WithCredentials e a
  | None => Ambient
  end.

(** [dict(disabled=..., description=..., ...)], the body of both requests. *)
Definition make_data (description disabled threshold period match_ action
                        : pyval) : pyval :=
  PDict [("disabled", disabled);
         ("description", description);
         ("period", period);
         ("threshold", threshold);
         ("action", action);
         ("match", match_)].

(** [rl['match']['request']['url']]. *)
Definition rule_url (rl : pyval) : result pyval :=
  (m <- getitem rl "match" ;;
   r <- getitem m "request" ;;
   getitem r "url")%result.

(** [match['request']['url']]. *)
Definition desired_url (match_ : pyval) : result pyval :=
  (r <- getitem match_ "request" ;; getitem r "url")%result.

(** The fields [compare_existing_ratelimit] walks through, in its order. *)
Definition compare : list string :=
  ["action"; "match"; "disabled"; "period"; "threshold"; "disabled";
   "description"].

(** The loop of [compare_existing_ratelimit]: [the_same] is cleared at a
    field whose values differ, and the loop goes on to the next field. *)
Fixpoint compare_loop (xs : list string) (ratelimit proposed_changes : pyval)
    (the_same : bool) : result bool :=
  match xs with
  | [] => Ok the_same
  | x :: xs' =>
      (a <- getitem ratelimit x ;;
       b <- getitem proposed_changes x ;;
       compare_loop xs' ratelimit proposed_changes
         (if py_ne a b then false else the_same))%result
  end.

Definition compare_existing_ratelimit (ratelimit proposed_changes : pyval)
    : result bool :=
  (the_same <- compare_loop compare ratelimit proposed_changes true ;;
   if the_same then Ok true else Ok false)%result.

(** The loop of [get_existing_ratelimit_id]: [Some rl] when the loop returns
    [rl], [None] when it runs to its end. *)
Fixpoint search_limits (url : pyval) (limits : list pyval)
    : result (option pyval) :=
  match limits with
  | [] => Ok None
  | rl :: rest =>
      (u <- rule_url rl ;;
       if py_eq u url then Ok (Some rl) else search_limits url rest)%result
  end.

Section CF_API_methods.

Context {St : Type} `{CF : CloudFlare St}.

Definition CF_API_init (zone : string) (email api : option string)
    : M (St := St) CF_API :=
  let c := make_client email api in
  (zid <- try_except
            (zones <- request (ZonesGet zone) (zones_get c zone) ;;
             z <- lift (first_item zones) ;;
             lift (getitem z "id"))
            (fun e => match e with
                      | IndexError =>
                          Some (raise (UserWarning
                                         ("Zone '" ++ zone ++ "' not found")))
                      | _ => None
                      end) ;;
   ret {| cf := c; zoneid := zid |})%M.

Definition list_zone_ratelimits (self : CF_API) : M (St := St) (list pyval) :=
  request (RateLimitsGet (zoneid self)) (rate_limits_get (cf self) (zoneid self)).

Definition get_existing_ratelimit_id (self : CF_API) (url : pyval)
    : M (St := St) pyval :=
  (limits <- list_zone_ratelimits self ;;
   found <- try_except (lift (search_limits url limits))
              (fun e => match e with
                        | IndexError => Some (ret None)
                        | _ => None
                        end) ;;
   match found with
   | Some rl => ret rl
   | None => ret PNone
   end)%M.

Definition create_ratelimit (self : CF_API)
    (description disabled threshold period match_ action : pyval)
    (update : bool) : M (St := St) pyval :=
  let data := make_data description disabled threshold period match_ action in
  (url <- lift (desired_url match_) ;;
   existing_id <- get_existing_ratelimit_id self url ;;
   if update && truthy existing_id then
     same <- lift (compare_existing_ratelimit existing_id data) ;;
     if negb same then
       id <- lift (getitem existing_id "id") ;;
       request (RateLimitsPut (zoneid self) id data)
         (rate_limits_put (cf self) (zoneid self) id data)
     else ret (PBool false)
   else
     request (RateLimitsPost (zoneid self) data)
       (rate_limits_post (cf self) (zoneid self) data))%M.

End CF_API_methods.

(** ** int() *)

Definition is_space (c : ascii) : bool :=
  let n := nat_of_ascii c in
  (Nat.eqb n 32 || (Nat.leb 9 n && Nat.leb n 13))%bool.

Definition digit_of (c : ascii) : option Z :=
  let n := Z.of_nat (nat_of_ascii c) in
  if (48 <=? n) && (n <=? 57) then Some (n - 48) else None.

Fixpoint lstrip (s : string) : string :=
  match s with
  | String c s' => if is_space c then lstrip s' else s
  | EmptyString => EmptyString
  end.

Fixpoint all_space (s : string) : bool :=
  match s with
  | String c s' => is_space c && all_space s'
  | EmptyString => true
  end.

(** Decimal digits, read left to right, followed by white space only. *)
Fixpoint digits (acc : Z) (s : string) : option Z :=
  match s with
  | EmptyString => Some acc
  | String c s' =>
      match digit_of c with
      | Some d => digits (10 * acc + d) s'
      | None => if all_space s then Some acc else None
      end
  end.

Definition unsigned (s : string) : option Z :=
  match s with
  | String c _ => match digit_of c with
                  | Some _ => digits 0 s
                  | None => None
                  end
  | EmptyString => None
  end.

(** The integer literals that [int] converts under every interpreter the
    module runs on: surrounding ASCII white space, an optional sign, decimal
    digits.  What is read here, [int] converts, to the same integer.  The
    converse does not hold: a string that is not read is not thereby one that
    [int] refuses, since later interpreters also convert digits grouped with
    underscores and digits and white space outside ASCII (and the latest
    ones set a limit, 4300 by default, on the number of digits).  The
    properties
    below that conclude on a refusal are stated for strings holding a letter,
    which [int] refuses whatever else they hold. *)
Definition int_of_string (s : string) : option Z :=
  match lstrip s with
  | String c r =>
      if Ascii.eqb c "+" then unsigned r
      else if Ascii.eqb c "-" then option_map Z.opp (unsigned r)
      else unsigned (String c r)
  | EmptyString => None
  end.

(** [int(x)]. *)
Definition py_int (x : pyval) : result Z :=
  match x with
  | PInt z => Ok z
  | PBool b => Ok (bool_int b)
  | PStr s => match int_of_string s with
              | Some z => Ok z
              | None => Raise ValueError
              end
  | _ => Raise TypeError
  end.

(** [[int(x) for x in xs]]. *)
Fixpoint sanitize (xs : list pyval) : result (list Z) :=
  match xs with
  | [] => Ok []
  | x :: xs' => (z <- py_int x ;; zs <- sanitize xs' ;; Ok (z :: zs))%result
  end.

(** ** main *)

(** [module.params], typed as the argument spec declares them. *)
Record params : Type := {
  account_email : option string;
  account_api_token : option string;
  zone_identifier : string;
  state : string;
  description : string;
  disabled : bool;
  threshold : Z;
  period : Z;
  match_method : list pyval;
  match_schemes : list pyval;
  match_url : string;
  match_response_status : list pyval;
  match_response_origin : bool;
  action_mode : string;
  action_timeout : Z;
  action_body : string;
  action_content_type : string
}.

Definition build_match (p : params) (status : list Z) : pyval :=
  PDict [("request", PDict [("methods", PList (match_method p));
                            ("schemes", PList (match_schemes p));
                            ("url", PStr (match_url p))]);
         ("response", PDict [("status", PList (map PInt status));
                             ("origin_traffic",
                              PBool (match_response_origin p))])].

Definition build_action (p : params) : pyval :=
  PDict [("mode", PStr (action_mode p));
         ("timeout", PInt (action_timeout p));
         ("response", PDict [("content_type", PStr (action_content_type p));
                             ("body", PStr (action_body p))])].

Definition threshold_msg : string :=
  "Threshold must be between " ++ str_Z THRESHOLD_MIN ++ " and "
    ++ str_Z THRESHOLD_MAX.

Definition period_msg : string :=
  "Period must be between " ++ str_Z PERIOD_MIN ++ " and " ++ str_Z PERIOD_MAX.

Section Main.

Context {St : Type} `{CF : CloudFlare St}.

(** [module.fail_json] and [module.exit_json] end the process. *)
Definition fail_json {A} (msg : string) : M (St := St) A :=
  raise (SystemExit (FailJson msg)).

Definition exit_json {A} (changed : bool) (results : option pyval)
    : M (St := St) A :=
  raise (SystemExit (ExitJson changed results)).

Definition when (b : bool) (m : M (St := St) unit) : M unit :=
  if b then m else ret tt.

(** The block under "Meat and potatoes": the [try] and its handlers. *)
Definition meat_and_potatoes (p : params) (match_ action : pyval)
    : M (St := St) unit :=
  try_except
    (api <- CF_API_init (zone_identifier p) (account_email p)
              (account_api_token p) ;;
     results <- create_ratelimit api (PStr (description p))
                  (PBool (disabled p)) (PInt (threshold p))
                  (PInt (period p)) match_ action true ;;
     when (negb (truthy results)) (exit_json false None) ;;;
     exit_json true (Some results))%M
    (fun e => match e with
              | CloudFlareAPIError msg => Some (fail_json ("Errr " ++ msg))
              | UserWarning msg =>
                  Some (fail_json ("Parameter issue, " ++ msg))
              | _ => None
              end).

(** [HAS_CF] tells whether the CloudFlare package could be imported. *)
Definition main (HAS_CF : bool) (p : params) : M (St := St) unit :=
  (status <- lift (sanitize (match_response_status p)) ;;
   let match_ := build_match p status in
   let action := build_action p in
   when ((threshold p <? THRESHOLD_MIN) || (threshold p >? THRESHOLD_MAX))
     (fail_json threshold_msg) ;;;
   when ((period p <? PERIOD_MIN) || (period p >? PERIOD_MAX))
     (fail_json period_msg) ;;;
   when (negb HAS_CF) (fail_json "cloudflare pip module required") ;;;
   meat_and_potatoes p match_ action)%M.

End Main.

(** ** A recording store *)

(** A remote service that keeps what it is sent: the zones it knows, the
    rate limits of the zone in list order, and the next identifier it hands
    out.  It stands for the service in the examples below. *)
Record recording : Type := {
  rec_zones : list pyval;
  rec_limits : list pyval;
  rec_next : Z
}.

Definition named (name : string) (zone : pyval) : bool :=
  match getitem zone "name" with
  | Ok n => py_eq n (PStr name)
  | Raise _ => false
  end.

Definition has_id (id rule : pyval) : bool :=
  match getitem rule "id" with
  | Ok i => py_eq i id
  | Raise _ => false
  end.

(** The rule the service stores for [data] under [id]. *)
Definition stored (id data : pyval) : pyval :=
  match data with
  | PDict d => PDict (d ++ [("id", id)])
  | _ => data
  end.

Definition rec_post (data : pyval) (s : recording)
    : result pyval * recording :=
  let r := stored (PStr (str_Z (rec_next s))) data in
  (Ok r, {| rec_zones := rec_zones s;
            rec_limits := rec_limits s ++ [r];
            rec_next := rec_next s + 1 |}).

Definition rec_put (id data : pyval) (s : recording)
    : result pyval * recording :=
  if existsb (has_id id) (rec_limits s) then
    (Ok (stored id data),
     {| rec_zones := rec_zones s;
        rec_limits := map (fun r => if has_id id r then stored id data else r)
                        (rec_limits s);
        rec_next := rec_next s |})
  else (Raise (CloudFlareAPIError "rate limit not found"), s).

#[export] Instance recording_store : CloudFlare recording := {
  zones_get _ name s := (Ok (filter (named name) (rec_zones s)), s);
  rate_limits_get _ _ s := (Ok (rec_limits s), s);
  rate_limits_post _ _ data s := rec_post data s;
  rate_limits_put _ _ id data s := rec_put id data s
}.

(** Running a computation against a service, from an empty trace. *)
Definition run {St A} (m : M (St := St) A) (s : St) : result A * world :=
  m (World s []).

(** ** Vocabulary of the properties *)

(** The rule carries a URL, and it is the wanted one. *)
Definition matches_url (url rl : pyval) : bool :=
  match rule_url rl with
  | Ok u => py_eq u url
  | Raise _ => false
  end.

(** The rule carries a URL, and it is another one. *)
Definition other_url (url rl : pyval) : bool :=
  match rule_url rl with
  | Ok u => negb (py_eq u url)
  | Raise _ => false
  end.

Definition has_url (rl : pyval) : bool :=
  match rule_url rl with
  | Ok _ => true
  | Raise _ => false
  end.

Definition has_field (rl : pyval) (x : string) : bool :=
  match getitem rl x with
  | Ok _ => true
  | Raise _ => false
  end.

(** Both values carry field [x], with equal values. *)
Definition field_eq (rl proposed : pyval) (x : string) : bool :=
  match getitem rl x, getitem proposed x with
  | Ok a, Ok b => py_eq a b
  | _, _ => false
  end.

(** The rule carries every compared field. *)
Definition complete (rl : pyval) : bool := forallb (has_field rl) compare.

(** The rule is equal to the proposal on every compared field. *)
Definition fields_equal (rl proposed : pyval) : bool :=
  forallb (field_eq rl proposed) compare.

Section AfterSearch.

Context {St : Type} `{CF : CloudFlare St}.

Variable self : CF_API.
Variable data : pyval.
Variable update : bool.

(** The run once the list has been fetched and searched: the rest depends
    on the rule found only. *)
Definition after_search (found : option pyval) (s1 : St) (t : list call)
    : result pyval * world :=
  let post :=
    let (res, s2) := rate_limits_post (cf self) (zoneid self) data s1 in
    (res, World s2 (t ++ [RateLimitsPost (zoneid self) data])) in
  match found with
  | Some rl =>
      if update && truthy rl then
        match compare_existing_ratelimit rl data with
        | Ok true => (Ok (PBool false), World s1 t)
        | Ok false =>
            match getitem rl "id" with
            | Ok id =>
                let (res, s2) :=
                  rate_limits_put (cf self) (zoneid self) id data s1 in
                (res, World s2 (t ++ [RateLimitsPut (zoneid self) id data]))
            | Raise e => (Raise e, World s1 t)
            end
        | Raise e => (Raise e, World s1 t)
        end
      else post
  | None => post
  end.

End AfterSearch.

(** ** A service that records faithfully *)

(** The rule [r] holds the compared fields of [data], value for value. *)
Definition records (data r : pyval) : Prop :=
  forall x v, In x compare -> getitem data x = Ok v -> getitem r x = Ok v.

(** What an update of the rules under [id] with [data] turns a listed rule
    into: a rule under that id records [data], any other rule stays. *)
Definition updated (id data r r' : pyval) : Prop :=
  if has_id id r then records data r' else r' = r.

(** The service behind [self] records faithfully and nothing else touches
    it: listing leaves it as it is; after a successful create the list holds
    one more rule, which records the data sent; after a successful update the
    rules under the id sent record the data sent and the other rules are the
    same. *)
Record faithful {St : Type} `{CF : CloudFlare St} (self : CF_API) : Prop := {
  list_reads :
    forall s res s',
      rate_limits_get (cf self) (zoneid self) s = (res, s') -> s' = s;
  create_records :
    forall data s res s2 limits,
      rate_limits_post (cf self) (zoneid self) data s = (Ok res, s2) ->
      rate_limits_get (cf self) (zoneid self) s = (Ok limits, s) ->
      exists pre post r,
        limits = (pre ++ post)%list
        /\ records data r
        /\ rate_limits_get (cf self) (zoneid self) s2
           = (Ok (pre ++ r :: post)%list, s2);
  update_records :
    forall id data s res s2 limits,
      rate_limits_put (cf self) (zoneid self) id data s = (Ok res, s2) ->
      rate_limits_get (cf self) (zoneid self) s = (Ok limits, s) ->
      exists limits',
        Forall2 (updated id data) limits limits'
        /\ rate_limits_get (cf self) (zoneid self) s2 = (Ok limits', s2)
}.

(** ** Example data *)

Module Ex.

Definition url : string := "example.com/login".

Definition match_for (u : string) : pyval :=
  PDict [("request", PDict [("methods", PList [PStr "GET"; PStr "POST"]);
                            ("schemes", PList [PStr "HTTP"; PStr "HTTPS"]);
                            ("url", PStr u)]);
         ("response", PDict [("status", PList [PInt 401]);
                             ("origin_traffic", PBool true)])].

Definition action : pyval :=
  PDict [("mode", PStr "ban");
         ("timeout", PInt 86400);
         ("response", PDict [("content_type", PStr "text/xml");
                             ("body", PStr DEFAULT_ERROR_MSG)])].

(** A rule as the service lists it. *)
Definition rule (id u : string) (threshold : Z) : pyval :=
  PDict [("id", PStr id);
         ("disabled", PBool false);
         ("description", PStr "login");
         ("match", match_for u);
         ("threshold", PInt threshold);
         ("period", PInt 60);
         ("action", action)].

(** The same rule with its threshold lost. *)
Definition rule_without_threshold (id u : string) : pyval :=
  PDict [("id", PStr id);
         ("disabled", PBool false);
         ("description", PStr "login");
         ("match", match_for u);
         ("period", PInt 60);
         ("action", action)].

Definition zone : pyval :=
  PDict [("id", PStr "zone-1"); ("name", PStr "example.com")].

Definition api : CF_API := {| cf := Ambient; zoneid := PStr "zone-1" |}.

Definition store (limits : list pyval) : recording :=
  {| rec_zones := [zone]; rec_limits := limits; rec_next := 100 |}.

(** The wanted rule: threshold 60 on [url]. *)
Definition reconcile (update : bool) : M (St := recording) pyval :=
  create_ratelimit api (PStr "login") (PBool false) (PInt 60) (PInt 60)
    (match_for url) action update.

Definition data : pyval :=
  make_data (PStr "login") (PBool false) (PInt 60) (PInt 60)
    (match_for url) action.

Definition params_with (threshold period : Z) (status : list pyval)
    : params :=
  {| account_email := None;
     account_api_token := None;
     zone_identifier := "example.com";
     state := "present";
     description := "login";
     disabled := false;
     threshold := threshold;
     period := period;
     match_method := [PStr "GET"; PStr "POST"];
     match_schemes := [PStr "HTTP"; PStr "HTTPS"];
     match_url := url;
     match_response_status := status;
     match_response_origin := true;
     action_mode := "ban";
     action_timeout := 86400;
     action_body := DEFAULT_ERROR_MSG;
     action_content_type := "text/xml" |}.

End Ex.

(** ** Statements that do not hold as worded *)

(** No-op on match, for a store that merely contains an equal rule. *)
Definition no_op_whenever_an_equal_rule_is_listed : Prop :=
  forall (St : Type) (CF : CloudFlare St) (self : CF_API)
         (description disabled threshold period match_ action url r : pyval)
         (limits : list pyval) (s s1 : St),
    desired_url match_ = Ok url ->
    rate_limits_get (cf self) (zoneid self) s = (Ok limits, s1) ->
    In r limits ->
    matches_url url r = true ->
    fields_equal r
      (make_data description disabled threshold period match_ action)
    = true ->
    let outcome :=
      run (create_ratelimit self description disabled threshold period match_
             action true) s in
    fst outcome = Ok (PBool false)
    /\ count is_mutating (trace (snd outcome)) = 0%nat.

(** A key-lookup error whenever a listed rule on the wanted URL lacks a
    compared field. *)
Definition key_error_whenever_a_partial_rule_is_listed : Prop :=
  forall (St : Type) (CF : CloudFlare St) (self : CF_API)
         (description disabled threshold period match_ action url r : pyval)
         (limits : list pyval) (s s1 : St),
    desired_url match_ = Ok url ->
    rate_limits_get (cf self) (zoneid self) s = (Ok limits, s1) ->
    In r limits ->
    matches_url url r = true ->
    complete r = false ->
    let outcome :=
      run (create_ratelimit self description disabled threshold period match_
             action true) s in
    (exists k, fst outcome = Raise (KeyError k))
    /\ count is_update (trace (snd outcome)) = 0%nat.

(** The bounds of the threshold and of the period. *)
Definition threshold_out (p : params) : bool :=
  (threshold p <? THRESHOLD_MIN) || (threshold p >? THRESHOLD_MAX).

Definition period_out (p : params) : bool :=
  (period p <? PERIOD_MIN) || (period p >? PERIOD_MAX).

Definition out_of_range (p : params) : Prop :=
  threshold p < 2 \/ 1000000 < threshold p
  \/ period p < 2 \/ 86400 < period p.

(** An out-of-range failure whatever the other parameters are. *)
Definition out_of_range_fails_whatever_the_status : Prop :=
  forall (St : Type) (CF : CloudFlare St) (HAS_CF : bool) (p : params)
         (s : St),
    out_of_range p ->
    let outcome := run (main HAS_CF p) s in
    (fst outcome = Raise (SystemExit (FailJson threshold_msg))
     \/ fst outcome = Raise (SystemExit (FailJson period_msg)))
    /\ trace (snd outcome) = [].

(** A status code as it arrives: the decimal numeral of [z] in a string, or
    [z] itself. *)
Definition numeral (x : pyval) (z : Z) : Prop :=
  x = PStr (str_Z z) \/ x = PInt z.





(** ** A scripted service *)

(** A service that answers the requests it gets, whatever they are, with
    the answers of a script, in order, and raises when the script is over.
    It stands for a service that fails or answers oddly in the examples. *)
Definition script : Type := list (result pyval).

Definition next_answer (s : script) : result pyval * script :=
  match s with
  | a :: s' => (a, s')
  | [] => (Raise (CloudFlareAPIError "end of script"), [])
  end.

Definition as_list (r : result pyval) : result (list pyval) :=
  match r with
  | Ok (PList l) => Ok l
  | Ok _ => Raise TypeError
  | Raise e => Raise e
  end.

Definition next_list (s : script) : result (list pyval) * script :=
  (as_list (fst (next_answer s)), snd (next_answer s)).

#[export] Instance scripted_store : CloudFlare script := {
  zones_get _ _ s := next_list s;
  rate_limits_get _ _ s := next_list s;
  rate_limits_post _ _ _ s := next_answer s;
  rate_limits_put _ _ _ _ s := next_answer s
}.

(** The [CF_API] object [main] builds for [p] once the zone is known. *)
Definition api_of (p : params) (zid : pyval) : CF_API :=
  {| cf := make_client (account_email p) (account_api_token p);
     zoneid := zid |}.

(** The body of the requests [main] sends for [p]. *)
Definition data_of (p : params) (zs : list Z) : pyval :=
  make_data (PStr (description p)) (PBool (disabled p)) (PInt (threshold p))
    (PInt (period p)) (build_match p zs) (build_action p).

(** What [main] reports for the outcome of [create_ratelimit]: the two
    exits, the two handlers, and the exceptions no handler takes. *)
Definition report (r : result pyval) : exn :=
  match r with
  | Ok v => SystemExit (ExitJson (truthy v)
                          (if truthy v then Some v else None))
  | Raise (CloudFlareAPIError msg) => SystemExit (FailJson ("Errr " ++ msg))
  | Raise (UserWarning msg) =>
      SystemExit (FailJson ("Parameter issue, " ++ msg))
  | Raise e => e
  end.

(** The parameters pass the checks of [main]: the status codes convert to
    [zs] and the threshold and the period are within their bounds. *)
Definition valid (p : params) (zs : list Z) : Prop :=
  sanitize (match_response_status p) = Ok zs
  /\ 2 <= threshold p <= 1000000
  /\ 2 <= period p <= 86400.

(** The parameters when only the zone and the URL are given: every other
    one at the default of the argument spec. *)
Definition default_params (zone url : string) : params :=
  {| account_email := None;
     account_api_token := None;
     zone_identifier := zone;
     state := "present";
     description := "";
     disabled := false;
     threshold := 60;
     period := 60;
     match_method := [PStr "GET"; PStr "POST"];
     match_schemes := [PStr "HTTP"; PStr "HTTPS"];
     match_url := url;
     match_response_status := [PInt 401];
     match_response_origin := true;
     action_mode := "ban";
     action_timeout := 86400;
     action_body := DEFAULT_ERROR_MSG;
     action_content_type := "text/xml" |}.

(** ** Integer literals *)








(** ** Properties *)

(** *** Equality of Python values *)

Lemma pyval_nested_ind (P : pyval -> Prop) :
  P PNone ->
  (forall b, P (PBool b)) ->
  (forall z, P (PInt z)) ->
  (forall s, P (PStr s)) ->
  (forall l, Forall P l -> P (PList l)) ->
  (forall d, Forall (fun kv => P (snd kv)) d -> P (PDict d)) ->
  forall v, P v.
Proof.
  intros HN HB HI HS HL HD.
  fix IH 1.
  intros [ | b | z | s | l | d ].
  - exact HN.
  - apply HB.
  - apply HI.
  - apply HS.
  - apply HL. induction l as [ | x l IHl ]; constructor.
    + apply IH.
    + exact IHl.
  - apply HD. induction d as [ | [k x] d IHd ]; constructor.
    + apply IH.
    + exact IHd.
Qed.

Lemma eq_list_refl (eqv : pyval -> pyval -> bool) (l : list pyval) :
  Forall (fun x => eqv x x = true) l -> eq_list eqv l l = true.
Proof.
  induction 1 as [ | x l Hx _ IH ]; simpl.
  - reflexivity.
  - now rewrite Hx, IH.
Qed.

Lemma lookup_app_not_in (k : string) (pre d : list (string * pyval)) :
  existsb (String.eqb k) (map fst pre) = false ->
  lookup k (pre ++ d)%list = lookup k d.
Proof.
  induction pre as [ | [k' v'] pre IH ]; simpl; intros Hk.
  - reflexivity.
  - apply orb_false_iff in Hk. destruct Hk as [Hne Hk].
    rewrite Hne. now apply IH.
Qed.

Lemma existsb_eqb_perm (k : string) (l l' : list string) :
  (forall x, In x l <-> In x l') ->
  existsb (String.eqb k) l = existsb (String.eqb k) l'.
Proof.
  intros Hiff.
  destruct (existsb (String.eqb k) l) eqn:E, (existsb (String.eqb k) l') eqn:E';
    try reflexivity.
  - apply existsb_exists in E. destruct E as [x [Hx Hkx]].
    apply Hiff in Hx.
    assert (existsb (String.eqb k) l' = true)
      by (apply existsb_exists; eauto).
    congruence.
  - apply existsb_exists in E'. destruct E' as [x [Hx Hkx]].
    apply Hiff in Hx.
    assert (existsb (String.eqb k) l = true)
      by (apply existsb_exists; eauto).
    congruence.
Qed.

Lemma eq_bindings_refl (eqv : pyval -> pyval -> bool)
    (l pre : list (string * pyval)) (seen : list string) :
  Forall (fun kv => eqv (snd kv) (snd kv) = true) l ->
  (forall x, In x seen <-> In x (map fst pre)) ->
  eq_bindings eqv (pre ++ l)%list seen l = true.
Proof.
  revert pre seen.
  induction l as [ | [k v] l IH ]; intros pre seen Hl Hseen; simpl.
  - reflexivity.
  - inversion Hl as [ | ? ? Hv Hl' ]; subst. simpl in Hv.
    apply andb_true_iff. split.
    + destruct (existsb (String.eqb k) seen) eqn:E; [ reflexivity | ].
      rewrite lookup_app_not_in
        by (rewrite <- (existsb_eqb_perm k seen); assumption).
      simpl. now rewrite String.eqb_refl.
    + replace (pre ++ (k, v) :: l)%list with ((pre ++ [(k, v)]) ++ l)%list
        by (now rewrite <- app_assoc).
      apply IH; [ assumption | ].
      intros x. rewrite map_app, in_app_iff. simpl.
      rewrite <- Hseen. tauto.
Qed.

Lemma has_key_all (d : list (string * pyval)) :
  forallb (fun kv => has_key d (fst kv)) d = true.
Proof.
  apply forallb_forall. intros [k v] Hin. unfold has_key. simpl.
  induction d as [ | [k' v'] d IH ]; simpl in *.
  - contradiction.
  - destruct (String.eqb k k') eqn:E; [ reflexivity | ].
    destruct Hin as [Heq | Hin].
    + inversion Heq; subst. now rewrite String.eqb_refl in E.
    + now apply IH.
Qed.

(** [==] is reflexive on these values. *)
Lemma py_eq_refl (v : pyval) : py_eq v v = true.
Proof.
  induction v as [ | b | z | s | l IH | d IH ] using pyval_nested_ind; simpl.
  - reflexivity.
  - now destruct b.
  - apply Z.eqb_refl.
  - apply String.eqb_refl.
  - now apply eq_list_refl.
  - apply andb_true_iff. split.
    + apply (eq_bindings_refl py_eq d [] []); [ assumption | ].
      simpl. tauto.
    + apply has_key_all.
Qed.

(** *** The search and the comparison *)

Lemma search_limits_cons (url rl : pyval) (rest : list pyval) :
  search_limits url (rl :: rest) =
  match rule_url rl with
  | Ok u => if py_eq u url then Ok (Some rl) else search_limits url rest
  | Raise e => Raise e
  end.
Proof. reflexivity. Qed.

Lemma search_limits_first (url r : pyval) (pre post : list pyval) :
  forallb (other_url url) pre = true ->
  matches_url url r = true ->
  search_limits url (pre ++ r :: post) = Ok (Some r).
Proof.
  unfold matches_url. intros Hpre Hr.
  induction pre as [ | x pre IH ].
  - simpl app. rewrite search_limits_cons.
    destruct (rule_url r) as [u | e]; [ now rewrite Hr | discriminate ].
  - simpl in Hpre. apply andb_true_iff in Hpre. destruct Hpre as [Hx Hpre].
    simpl app. rewrite search_limits_cons.
    unfold other_url in Hx.
    destruct (rule_url x) as [u | e]; [ | discriminate ].
    apply negb_true_iff in Hx. rewrite Hx. now apply IH.
Qed.

Lemma search_limits_none (url : pyval) (limits : list pyval) :
  forallb (other_url url) limits = true ->
  search_limits url limits = Ok None.
Proof.
  induction limits as [ | x limits IH ]; intros Hall.
  - reflexivity.
  - simpl in Hall. apply andb_true_iff in Hall. destruct Hall as [Hx Hall].
    rewrite search_limits_cons. unfold other_url in Hx.
    destruct (rule_url x) as [u | e]; [ | discriminate ].
    apply negb_true_iff in Hx. rewrite Hx. now apply IH.
Qed.

(** What the search answers, read backwards: the rule it returns is the
    first one with the wanted URL, and every rule before it has another. *)
Lemma search_limits_some_inv (url r : pyval) (limits : list pyval) :
  search_limits url limits = Ok (Some r) ->
  exists pre post,
    limits = (pre ++ r :: post)%list
    /\ forallb (other_url url) pre = true
    /\ matches_url url r = true.
Proof.
  induction limits as [ | x limits IH ]; intros Hs.
  - discriminate.
  - rewrite search_limits_cons in Hs.
    destruct (rule_url x) as [u | e] eqn:Hu; [ | discriminate ].
    destruct (py_eq u url) eqn:Hq.
    + inversion Hs; subst. exists [], limits. repeat split.
      unfold matches_url. now rewrite Hu.
    + destruct (IH Hs) as (pre & post & -> & Hpre & Hr).
      exists (x :: pre), post. repeat split; [ | assumption ].
      simpl. unfold other_url at 1. now rewrite Hu, Hq.
Qed.

Lemma search_limits_none_inv (url : pyval) (limits : list pyval) :
  search_limits url limits = Ok None ->
  forallb (other_url url) limits = true.
Proof.
  induction limits as [ | x limits IH ]; intros Hs.
  - reflexivity.
  - rewrite search_limits_cons in Hs.
    destruct (rule_url x) as [u | e] eqn:Hu; [ | discriminate ].
    destruct (py_eq u url) eqn:Hq; [ discriminate | ].
    simpl. unfold other_url at 1. rewrite Hu, Hq. now apply IH.
Qed.

(** The search never raises [IndexError]: a subscript by a string raises
    [KeyError] or [TypeError]. *)
Lemma getitem_raises (v : pyval) (k : string) (e : exn) :
  getitem v k = Raise e -> e = KeyError k \/ e = TypeError.
Proof.
  destruct v as [ | | | | | d ]; simpl; try (intros [= <-]; now right).
  destruct (lookup k d); [ discriminate | intros [= <-]; now left ].
Qed.

Lemma rule_url_raises (rl : pyval) (e : exn) :
  rule_url rl = Raise e -> e <> IndexError.
Proof.
  unfold rule_url, rbind. intros H.
  destruct (getitem rl "match") as [m | e1] eqn:H1.
  - destruct (getitem m "request") as [r | e2] eqn:H2.
    + destruct (getitem_raises _ _ _ H) as [-> | ->]; discriminate.
    + inversion H; subst.
      destruct (getitem_raises _ _ _ H2) as [-> | ->]; discriminate.
  - inversion H; subst.
    destruct (getitem_raises _ _ _ H1) as [-> | ->]; discriminate.
Qed.

Lemma search_limits_raises (url : pyval) (limits : list pyval) (e : exn) :
  search_limits url limits = Raise e -> e <> IndexError.
Proof.
  induction limits as [ | x limits IH ]; intros Hs.
  - discriminate.
  - rewrite search_limits_cons in Hs.
    destruct (rule_url x) as [u | e1] eqn:Hu.
    + destruct (py_eq u url); [ discriminate | now apply IH ].
    + inversion Hs; subst. now apply rule_url_raises in Hu.
Qed.

(** A rule that carries a URL is a dict with a binding, hence true. *)
Lemma has_url_truthy (rl : pyval) : has_url rl = true -> truthy rl = true.
Proof.
  unfold has_url, rule_url, rbind.
  destruct rl as [ | | | | | d ]; simpl; try discriminate.
  destruct d; [ discriminate | reflexivity ].
Qed.

Lemma matches_url_has_url (url rl : pyval) :
  matches_url url rl = true -> has_url rl = true.
Proof.
  unfold matches_url, has_url. now destruct (rule_url rl).
Qed.

Lemma compare_loop_complete (xs : list string) (rl proposed : pyval)
    (the_same : bool) :
  forallb (has_field rl) xs = true ->
  forallb (has_field proposed) xs = true ->
  compare_loop xs rl proposed the_same =
  Ok (the_same && forallb (field_eq rl proposed) xs).
Proof.
  revert the_same.
  induction xs as [ | x xs IH ]; intros the_same Hrl Hp; simpl.
  - now rewrite andb_true_r.
  - simpl in Hrl, Hp.
    apply andb_true_iff in Hrl. destruct Hrl as [Hx Hrl].
    apply andb_true_iff in Hp. destruct Hp as [Hy Hp].
    unfold has_field in Hx, Hy. unfold field_eq at 1, py_ne.
    destruct (getitem rl x) as [a | ]; [ | discriminate ].
    destruct (getitem proposed x) as [b | ]; [ | discriminate ].
    simpl. rewrite IH by assumption.
    destruct (py_eq a b); simpl.
    + reflexivity.
    + now rewrite andb_false_r.
Qed.

Lemma compare_loop_missing (xs : list string) (d : list (string * pyval))
    (proposed : pyval) (the_same : bool) :
  forallb (has_field proposed) xs = true ->
  forallb (has_field (PDict d)) xs = false ->
  exists k, In k xs /\ lookup k d = None
            /\ compare_loop xs (PDict d) proposed the_same
               = Raise (KeyError k).
Proof.
  revert the_same.
  induction xs as [ | x xs IH ]; intros the_same Hp Hd.
  - discriminate.
  - simpl in Hp. apply andb_true_iff in Hp. destruct Hp as [Hy Hp].
    simpl in Hd. unfold has_field at 1 in Hd. unfold has_field in Hy.
    cbn [compare_loop getitem] in *.
    destruct (lookup x d) as [a | ] eqn:Hx.
    + destruct (getitem proposed x) as [b | ]; [ | discriminate ].
      simpl in Hd.
      destruct (IH (if py_ne a b then false else the_same) Hp Hd)
        as (k & Hin & Hk & Hrun).
      exists k. repeat split; [ now right | assumption | exact Hrun ].
    + exists x. repeat split; [ now left | assumption ].
Qed.

Lemma make_data_complete
    (description disabled threshold period match_ action : pyval) :
  forallb
    (has_field
       (make_data description disabled threshold period match_ action))
    compare = true.
Proof. reflexivity. Qed.

Lemma compare_existing_complete (rl proposed : pyval) :
  complete rl = true ->
  complete proposed = true ->
  compare_existing_ratelimit rl proposed = Ok (fields_equal rl proposed).
Proof.
  intros Hrl Hp. unfold compare_existing_ratelimit.
  rewrite (compare_loop_complete _ _ _ _ Hrl Hp).
  cbn [rbind andb]. fold (fields_equal rl proposed).
  now destruct (fields_equal rl proposed).
Qed.

(** *** One run of create_ratelimit *)

Section Reconcile.

Context {St : Type} `{CF : CloudFlare St}.

Variable self : CF_API.
Variables description disabled threshold period match_ action : pyval.
Variable update : bool.

Lemma create_ratelimit_run (url : pyval) (s s1 : St) (t : list call)
    (limits : list pyval) (found : option pyval) :
  desired_url match_ = Ok url ->
  rate_limits_get (cf self) (zoneid self) s = (Ok limits, s1) ->
  search_limits url limits = Ok found ->
  create_ratelimit self description disabled threshold period match_ action
    update (World s t)
  = after_search self
      (make_data description disabled threshold period match_ action)
      update found s1 (t ++ [RateLimitsGet (zoneid self)]).
Proof.
  intros Hurl Hget Hsearch.
  unfold create_ratelimit, get_existing_ratelimit_id,
    list_zone_ratelimits, after_search, bind, lift, try_except, request, ret.
  rewrite Hurl. cbn [remote trace]. rewrite Hget, Hsearch.
  destruct found as [rl | ]; cbn [andb truthy].
  - destruct (update && truthy rl); [ | reflexivity ].
    destruct (compare_existing_ratelimit rl _) as [[ | ] | e];
      reflexivity.
  - rewrite andb_false_r. reflexivity.
Qed.

(** When the list is fetched but the search raises, nothing more is sent. *)
Lemma create_ratelimit_search_raises (url : pyval) (s s1 : St)
    (t : list call) (limits : list pyval) (e : exn) :
  desired_url match_ = Ok url ->
  rate_limits_get (cf self) (zoneid self) s = (Ok limits, s1) ->
  search_limits url limits = Raise e ->
  create_ratelimit self description disabled threshold period match_ action
    update (World s t)
  = (Raise e, World s1 (t ++ [RateLimitsGet (zoneid self)])).
Proof.
  intros Hurl Hget Hsearch.
  pose proof (search_limits_raises _ _ _ Hsearch) as Hne.
  unfold create_ratelimit, get_existing_ratelimit_id,
    list_zone_ratelimits, bind, lift, try_except, request, ret.
  rewrite Hurl. cbn [remote trace]. rewrite Hget, Hsearch.
  destruct e; try reflexivity. now contradiction Hne.
Qed.

(** When the list request itself raises, nothing more is sent. *)
Lemma create_ratelimit_list_raises (url : pyval) (s s1 : St)
    (t : list call) (e : exn) :
  desired_url match_ = Ok url ->
  rate_limits_get (cf self) (zoneid self) s = (Raise e, s1) ->
  create_ratelimit self description disabled threshold period match_ action
    update (World s t)
  = (Raise e, World s1 (t ++ [RateLimitsGet (zoneid self)])).
Proof.
  intros Hurl Hget.
  unfold create_ratelimit, get_existing_ratelimit_id,
    list_zone_ratelimits, bind, lift, try_except, request, ret.
  rewrite Hurl. cbn [remote trace]. now rewrite Hget.
Qed.

End Reconcile.

(** *** No-op on match *)

Lemma fields_equal_complete (rl proposed : pyval) :
  fields_equal rl proposed = true -> complete rl = true.
Proof.
  unfold fields_equal, complete. intros H.
  apply forallb_forall. intros x Hx.
  apply (proj1 (forallb_forall _ _) H) in Hx.
  unfold field_eq in Hx. unfold has_field.
  now destruct (getitem rl x).
Qed.

(** C1, as amended.  When the first listed rule carrying the wanted URL is
    equal to the wanted rule on action, match, disabled, period, threshold
    and description (under Python's [==], hence in particular when it is
    structurally equal), [create_ratelimit] with [update=True] sends the list
    request and nothing else, and returns [False]. *)
Theorem no_op_on_first_match
    {St : Type} `{CF : CloudFlare St} (self : CF_API)
    (description disabled threshold period match_ action url r : pyval)
    (pre post : list pyval) (s s1 : St) :
  desired_url match_ = Ok url ->
  rate_limits_get (cf self) (zoneid self) s = (Ok (pre ++ r :: post)%list, s1) ->
  forallb (other_url url) pre = true ->
  matches_url url r = true ->
  fields_equal r
    (make_data description disabled threshold period match_ action) = true ->
  run (create_ratelimit self description disabled threshold period match_
         action true) s
  = (Ok (PBool false), World s1 [RateLimitsGet (zoneid self)]).
Proof.
  intros Hurl Hget Hpre Hr Heq. unfold run.
  rewrite (create_ratelimit_run self _ _ _ _ _ _ true url s s1 []
             (pre ++ r :: post)%list (Some r) Hurl Hget
             (search_limits_first _ _ _ _ Hpre Hr)).
  unfold after_search.
  rewrite (has_url_truthy r (matches_url_has_url _ _ Hr)).
  rewrite compare_existing_complete
    by (eauto using fields_equal_complete, make_data_complete).
  cbn [andb]. now rewrite Heq.
Qed.

Lemma no_op_on_first_match_witness :
  run (Ex.reconcile true)
    (Ex.store [Ex.rule "a" "example.com/other" 5; Ex.rule "b" Ex.url 60;
               Ex.rule "c" Ex.url 5])
  = (Ok (PBool false),
     World (Ex.store [Ex.rule "a" "example.com/other" 5; Ex.rule "b" Ex.url 60;
                      Ex.rule "c" Ex.url 5])
       [RateLimitsGet (zoneid Ex.api)]).
Proof.
  apply (no_op_on_first_match Ex.api (PStr "login") (PBool false) (PInt 60)
           (PInt 60) (Ex.match_for Ex.url) Ex.action (PStr Ex.url)
           (Ex.rule "b" Ex.url 60)
           [Ex.rule "a" "example.com/other" 5] [Ex.rule "c" Ex.url 5]);
    reflexivity.
Defined.

(** What the run does there: the rule listed first is the one updated. *)
Example duplicate_first_is_updated :
  run (Ex.reconcile true)
    (Ex.store [Ex.rule "a" Ex.url 5; Ex.rule "b" Ex.url 60])
  = (Ok (stored (PStr "a") Ex.data),
     World {| rec_zones := [Ex.zone];
              rec_limits := [stored (PStr "a") Ex.data; Ex.rule "b" Ex.url 60];
              rec_next := 100 |}
       [RateLimitsGet (PStr "zone-1");
        RateLimitsPut (PStr "zone-1") (PStr "a") Ex.data]).
Proof. reflexivity. Qed.

(** C1, as stated, fails: with two rules on the wanted URL, the first with
    another threshold and the second equal to the wanted rule, the first one
    is selected and updated. *)
Lemma equal_rule_behind_a_duplicate :
  ~ no_op_whenever_an_equal_rule_is_listed.
Proof.
  intros H.
  specialize (H recording recording_store Ex.api (PStr "login") (PBool false)
                (PInt 60) (PInt 60) (Ex.match_for Ex.url) Ex.action
                (PStr Ex.url) (Ex.rule "b" Ex.url 60)
                [Ex.rule "a" Ex.url 5; Ex.rule "b" Ex.url 60]
                (Ex.store [Ex.rule "a" Ex.url 5; Ex.rule "b" Ex.url 60])
                (Ex.store [Ex.rule "a" Ex.url 5; Ex.rule "b" Ex.url 60])
                eq_refl eq_refl (or_intror (or_introl eq_refl))
                eq_refl eq_refl).
  destruct H as [H _]. vm_compute in H. discriminate H.
Qed.

(** *** Update on difference *)

Lemma field_differs_not_equal (rl proposed : pyval) (x : string) :
  In x compare ->
  field_eq rl proposed x = false ->
  fields_equal rl proposed = false.
Proof.
  intros Hin Hx. unfold fields_equal.
  destruct (forallb (field_eq rl proposed) compare) eqn:E; [ | reflexivity ].
  rewrite (proj1 (forallb_forall _ _) E x Hin) in Hx. discriminate.
Qed.

(** C2.  The store lists exactly one rule on the wanted URL; that rule
    carries every compared field and an id, and its threshold is not the
    wanted one.  Then [create_ratelimit] with [update=True] sends the list
    request and then one update aimed at that rule's id, sends no create,
    and returns what the service answered to the update. *)
Theorem update_on_different_threshold
    {St : Type} `{CF : CloudFlare St} (self : CF_API)
    (description disabled threshold period match_ action url r id t : pyval)
    (pre post : list pyval) (s s1 : St) :
  desired_url match_ = Ok url ->
  rate_limits_get (cf self) (zoneid self) s = (Ok (pre ++ r :: post)%list, s1) ->
  forallb (other_url url) pre = true ->
  forallb (other_url url) post = true ->
  matches_url url r = true ->
  complete r = true ->
  getitem r "id" = Ok id ->
  getitem r "threshold" = Ok t ->
  py_eq t threshold = false ->
  let data := make_data description disabled threshold period match_ action in
  let answer := rate_limits_put (cf self) (zoneid self) id data s1 in
  let outcome :=
    run (create_ratelimit self description disabled threshold period match_
           action true) s in
  outcome
  = (fst answer,
     World (snd answer)
       [RateLimitsGet (zoneid self); RateLimitsPut (zoneid self) id data])
  /\ count is_update (trace (snd outcome)) = 1%nat
  /\ count is_create (trace (snd outcome)) = 0%nat.
Proof.
  intros Hurl Hget Hpre _ Hr Hc Hid Ht Hne data answer outcome.
  assert (Hout : outcome
                 = (fst answer,
                    World (snd answer)
                      [RateLimitsGet (zoneid self);
                       RateLimitsPut (zoneid self) id data])).
  { unfold outcome, run.
    rewrite (create_ratelimit_run self _ _ _ _ _ _ true url s s1 []
               (pre ++ r :: post)%list (Some r) Hurl Hget
               (search_limits_first _ _ _ _ Hpre Hr)).
    unfold after_search.
    rewrite (has_url_truthy r (matches_url_has_url _ _ Hr)).
    rewrite compare_existing_complete
      by (eauto using make_data_complete).
    rewrite (field_differs_not_equal r _ "threshold").
    - cbn [andb]. rewrite Hid. fold data. fold answer.
      now destruct answer.
    - unfold compare. simpl. tauto.
    - unfold field_eq. rewrite Ht. exact Hne. }
  rewrite Hout. repeat split.
Qed.

Lemma update_on_different_threshold_witness :
  run (Ex.reconcile true)
    (Ex.store [Ex.rule "a" "example.com/other" 60; Ex.rule "b" Ex.url 5])
  = (Ok (stored (PStr "b") Ex.data),
     World {| rec_zones := [Ex.zone];
              rec_limits := [Ex.rule "a" "example.com/other" 60;
                             stored (PStr "b") Ex.data];
              rec_next := 100 |}
       [RateLimitsGet (PStr "zone-1");
        RateLimitsPut (PStr "zone-1") (PStr "b") Ex.data]).
Proof.
  refine (proj1 (update_on_different_threshold Ex.api (PStr "login") (PBool false)
           (PInt 60) (PInt 60) (Ex.match_for Ex.url) Ex.action (PStr Ex.url)
           (Ex.rule "b" Ex.url 5) (PStr "b") (PInt 5)
           [Ex.rule "a" "example.com/other" 60] []
           (Ex.store [Ex.rule "a" "example.com/other" 60;
                      Ex.rule "b" Ex.url 5])
           (Ex.store [Ex.rule "a" "example.com/other" 60;
                      Ex.rule "b" Ex.url 5])
           _ _ _ _ _ _ _ _ _)); reflexivity.
Defined.

(** *** Creation *)




(** *** Requests of one run *)

(** C8.  Whatever the service holds and answers and whatever [update] is,
    one run of [create_ratelimit] for a rule that carries a URL sends the
    list request exactly once, first, and then at most one mutating request:
    nothing, one create, or one update. *)
Theorem one_list_at_most_one_mutation
    {St : Type} `{CF : CloudFlare St} (self : CF_API)
    (description disabled threshold period match_ action url : pyval)
    (update : bool) (s : St) :
  desired_url match_ = Ok url ->
  let data := make_data description disabled threshold period match_ action in
  let t :=
    trace (snd (run (create_ratelimit self description disabled threshold
                       period match_ action update) s)) in
  count is_list_call t = 1%nat
  /\ (count is_mutating t <= 1)%nat
  /\ (t = [RateLimitsGet (zoneid self)]
      \/ t = [RateLimitsGet (zoneid self); RateLimitsPost (zoneid self) data]
      \/ exists id,
           t = [RateLimitsGet (zoneid self);
                RateLimitsPut (zoneid self) id data]).
Proof.
  intros Hurl data t.
  assert (Hshape :
            t = [RateLimitsGet (zoneid self)]
            \/ t = [RateLimitsGet (zoneid self);
                    RateLimitsPost (zoneid self) data]
            \/ exists id,
                 t = [RateLimitsGet (zoneid self);
                      RateLimitsPut (zoneid self) id data]).
  { unfold t, run.
    destruct (rate_limits_get (cf self) (zoneid self) s) as [[limits | e] s1]
      eqn:Hget.
    - destruct (search_limits url limits) as [found | e] eqn:Hs.
      + rewrite (create_ratelimit_run self _ _ _ _ _ _ update url s s1 []
                   limits found Hurl Hget Hs).
        unfold after_search. fold data.
        destruct (rate_limits_post (cf self) (zoneid self) data s1)
          as [res s2].
        destruct found as [r | ]; [ | right; left; reflexivity ].
        destruct (update && truthy r); [ | right; left; reflexivity ].
        destruct (compare_existing_ratelimit r data) as [[ | ] | e];
          try (left; reflexivity).
        destruct (getitem r "id") as [id | e]; [ | left; reflexivity ].
        destruct (rate_limits_put (cf self) (zoneid self) id data s1)
          as [res' s2'].
        right; right. exists id. reflexivity.
      + rewrite (create_ratelimit_search_raises self _ _ _ _ _ _ update url
                   s s1 [] limits e Hurl Hget Hs).
        left; reflexivity.
    - rewrite (create_ratelimit_list_raises self _ _ _ _ _ _ update url
                 s s1 [] e Hurl Hget).
      left; reflexivity. }
  split; [ | split; [ | exact Hshape ] ];
    destruct Hshape as [-> | [-> | [id ->]]]; cbn; lia.
Qed.

Lemma one_list_at_most_one_mutation_witness :
  count is_list_call
    (trace (snd (run (Ex.reconcile true) (Ex.store [Ex.rule "a" Ex.url 5]))))
  = 1%nat
  /\ (count is_mutating
        (trace (snd (run (Ex.reconcile true)
                       (Ex.store [Ex.rule "a" Ex.url 5])))) <= 1)%nat.
Proof.
  pose proof (one_list_at_most_one_mutation Ex.api (PStr "login")
                (PBool false) (PInt 60) (PInt 60) (Ex.match_for Ex.url)
                Ex.action (PStr Ex.url) true
                (Ex.store [Ex.rule "a" Ex.url 5]) eq_refl) as H.
  split; [ exact (proj1 H) | exact (proj1 (proj2 H)) ].
Defined.

(** *** Duplicated URLs *)

Lemma get_existing_ratelimit_id_run
    {St : Type} `{CF : CloudFlare St} (self : CF_API) (url : pyval)
    (limits : list pyval) (found : option pyval) (s s1 : St)
    (t : list call) :
  rate_limits_get (cf self) (zoneid self) s = (Ok limits, s1) ->
  search_limits url limits = Ok found ->
  get_existing_ratelimit_id self url (World s t)
  = (Ok match found with Some rl => rl | None => PNone end,
     World s1 (t ++ [RateLimitsGet (zoneid self)])).
Proof.
  intros Hget Hs.
  unfold get_existing_ratelimit_id, list_zone_ratelimits, bind, lift,
    try_except, request, ret.
  cbn [remote trace]. rewrite Hget, Hs. now destruct found.
Qed.

(** C7.  When several listed rules carry the wanted URL, the search returns
    the one listed first, and the run of [create_ratelimit] is the one that
    rule alone dictates, whatever is listed after it: for a rule that carries
    the compared fields and an id, either nothing is sent and [False] is
    returned, or one request is sent and its answer returned.  No step raises
    on account of the duplicates. *)
Theorem first_duplicate_is_selected
    {St : Type} `{CF : CloudFlare St} (self : CF_API)
    (description disabled threshold period match_ action url r : pyval)
    (update : bool) (pre post : list pyval) (s s1 : St) :
  desired_url match_ = Ok url ->
  rate_limits_get (cf self) (zoneid self) s = (Ok (pre ++ r :: post)%list, s1) ->
  forallb (other_url url) pre = true ->
  matches_url url r = true ->
  existsb (matches_url url) post = true ->
  let data := make_data description disabled threshold period match_ action in
  let listed := [RateLimitsGet (zoneid self)] in
  let outcome :=
    run (create_ratelimit self description disabled threshold period match_
           action update) s in
  run (get_existing_ratelimit_id self url) s = (Ok r, World s1 listed)
  /\ outcome = after_search self data update (Some r) s1 listed
  /\ forall id,
       complete r = true ->
       getitem r "id" = Ok id ->
       outcome
       = if update then
           if fields_equal r data then (Ok (PBool false), World s1 listed)
           else
             let answer := rate_limits_put (cf self) (zoneid self) id data s1 in
             (fst answer,
              World (snd answer)
                (listed ++ [RateLimitsPut (zoneid self) id data]))
         else
           let answer := rate_limits_post (cf self) (zoneid self) data s1 in
           (fst answer,
            World (snd answer) (listed ++ [RateLimitsPost (zoneid self) data])).
Proof.
  intros Hurl Hget Hpre Hr _ data listed outcome.
  pose proof (search_limits_first url r pre post Hpre Hr) as Hs.
  assert (Hrun : outcome = after_search self data update (Some r) s1 listed).
  { unfold outcome, run.
    now rewrite (create_ratelimit_run self _ _ _ _ _ _ update url s s1 []
                   _ (Some r) Hurl Hget Hs). }
  split; [ | split ].
  - unfold run. now rewrite (get_existing_ratelimit_id_run self url _ (Some r)
                               s s1 [] Hget Hs).
  - exact Hrun.
  - intros id Hc Hid. rewrite Hrun. unfold after_search.
    rewrite (has_url_truthy r (matches_url_has_url _ _ Hr)), andb_true_r.
    destruct update.
    + rewrite compare_existing_complete
        by (eauto using make_data_complete).
      destruct (fields_equal r data); [ reflexivity | ].
      rewrite Hid.
      now destruct (rate_limits_put (cf self) (zoneid self) id data s1).
    + now destruct (rate_limits_post (cf self) (zoneid self) data s1).
Qed.

Lemma first_duplicate_is_selected_witness :
  run (get_existing_ratelimit_id Ex.api (PStr Ex.url))
    (Ex.store [Ex.rule "a" "example.com/other" 5; Ex.rule "b" Ex.url 60;
               Ex.rule "c" Ex.url 5])
  = (Ok (Ex.rule "b" Ex.url 60),
     World (Ex.store [Ex.rule "a" "example.com/other" 5;
                      Ex.rule "b" Ex.url 60; Ex.rule "c" Ex.url 5])
       [RateLimitsGet (PStr "zone-1")]).
Proof.
  refine (proj1 (first_duplicate_is_selected Ex.api (PStr "login")
                   (PBool false) (PInt 60) (PInt 60) (Ex.match_for Ex.url)
                   Ex.action (PStr Ex.url) (Ex.rule "b" Ex.url 60) true
                   [Ex.rule "a" "example.com/other" 5] [Ex.rule "c" Ex.url 5]
                   (Ex.store [Ex.rule "a" "example.com/other" 5;
                              Ex.rule "b" Ex.url 60; Ex.rule "c" Ex.url 5])
                   (Ex.store [Ex.rule "a" "example.com/other" 5;
                              Ex.rule "b" Ex.url 60; Ex.rule "c" Ex.url 5])
                   _ _ _ _ _));
    reflexivity.
Defined.

(** *** A listed rule that lacks a field *)

Lemma compare_existing_partial (rl proposed : pyval) :
  has_url rl = true ->
  complete proposed = true ->
  complete rl = false ->
  exists k, In k compare
            /\ getitem rl k = Raise (KeyError k)
            /\ compare_existing_ratelimit rl proposed = Raise (KeyError k).
Proof.
  intros Hu Hp Hc.
  destruct rl as [ | | | | | d ]; try discriminate Hu.
  destruct (compare_loop_missing compare d proposed true Hp Hc)
    as (k & Hin & Hk & Hrun).
  exists k. repeat split; [ exact Hin | | ].
  - simpl. now rewrite Hk.
  - unfold compare_existing_ratelimit. now rewrite Hrun.
Qed.

(** C10, as amended.  When the first listed rule carrying the wanted URL
    lacks one of the compared fields, the comparison raises [KeyError] on
    such a field, the missing field is not taken for a difference, and
    [create_ratelimit] with [update=True] ends with that exception after the
    list request alone: no update is sent. *)
Theorem partial_rule_raises_key_error
    {St : Type} `{CF : CloudFlare St} (self : CF_API)
    (description disabled threshold period match_ action url r : pyval)
    (pre post : list pyval) (s s1 : St) :
  desired_url match_ = Ok url ->
  rate_limits_get (cf self) (zoneid self) s = (Ok (pre ++ r :: post)%list, s1) ->
  forallb (other_url url) pre = true ->
  matches_url url r = true ->
  complete r = false ->
  let data := make_data description disabled threshold period match_ action in
  exists k,
    In k compare
    /\ getitem r k = Raise (KeyError k)
    /\ compare_existing_ratelimit r data = Raise (KeyError k)
    /\ run (create_ratelimit self description disabled threshold period
              match_ action true) s
       = (Raise (KeyError k), World s1 [RateLimitsGet (zoneid self)]).
Proof.
  intros Hurl Hget Hpre Hr Hc data.
  pose proof (matches_url_has_url _ _ Hr) as Hu.
  destruct (compare_existing_partial r data Hu
              (make_data_complete _ _ _ _ _ _) Hc)
    as (k & Hin & Hk & Hcmp).
  exists k. repeat split; try assumption.
  unfold run.
  rewrite (create_ratelimit_run self _ _ _ _ _ _ true url s s1 []
             (pre ++ r :: post)%list (Some r) Hurl Hget
             (search_limits_first _ _ _ _ Hpre Hr)).
  unfold after_search. rewrite (has_url_truthy r Hu). cbn [andb].
  fold data. now rewrite Hcmp.
Qed.

Lemma partial_rule_raises_key_error_witness :
  exists k,
    In k compare
    /\ getitem (Ex.rule_without_threshold "b" Ex.url) k = Raise (KeyError k)
    /\ compare_existing_ratelimit (Ex.rule_without_threshold "b" Ex.url)
         Ex.data = Raise (KeyError k)
    /\ run (Ex.reconcile true)
         (Ex.store [Ex.rule "a" "example.com/other" 5;
                    Ex.rule_without_threshold "b" Ex.url])
       = (Raise (KeyError k),
          World (Ex.store [Ex.rule "a" "example.com/other" 5;
                           Ex.rule_without_threshold "b" Ex.url])
            [RateLimitsGet (PStr "zone-1")]).
Proof.
  refine (partial_rule_raises_key_error Ex.api (PStr "login") (PBool false)
            (PInt 60) (PInt 60) (Ex.match_for Ex.url) Ex.action (PStr Ex.url)
            (Ex.rule_without_threshold "b" Ex.url)
            [Ex.rule "a" "example.com/other" 5] []
            (Ex.store [Ex.rule "a" "example.com/other" 5;
                       Ex.rule_without_threshold "b" Ex.url])
            (Ex.store [Ex.rule "a" "example.com/other" 5;
                       Ex.rule_without_threshold "b" Ex.url])
            _ _ _ _ _);
    reflexivity.
Defined.

(** What the run does when the partial rule is listed behind a full one on
    the same URL: the full one is selected and updated. *)
Example partial_rule_behind_a_duplicate_is_not_read :
  run (Ex.reconcile true)
    (Ex.store [Ex.rule "a" Ex.url 5; Ex.rule_without_threshold "b" Ex.url])
  = (Ok (stored (PStr "a") Ex.data),
     World {| rec_zones := [Ex.zone];
              rec_limits := [stored (PStr "a") Ex.data;
                             Ex.rule_without_threshold "b" Ex.url];
              rec_next := 100 |}
       [RateLimitsGet (PStr "zone-1");
        RateLimitsPut (PStr "zone-1") (PStr "a") Ex.data]).
Proof. reflexivity. Qed.

(** C10, as stated, fails: a rule that lacks its threshold, listed behind
    another rule on the same URL, is never compared; the run updates the
    rule listed first and raises nothing. *)
Lemma partial_rule_behind_a_duplicate :
  ~ key_error_whenever_a_partial_rule_is_listed.
Proof.
  intros H.
  destruct (H recording recording_store Ex.api (PStr "login") (PBool false)
              (PInt 60) (PInt 60) (Ex.match_for Ex.url) Ex.action
              (PStr Ex.url) (Ex.rule_without_threshold "b" Ex.url)
              [Ex.rule "a" Ex.url 5; Ex.rule_without_threshold "b" Ex.url]
              (Ex.store [Ex.rule "a" Ex.url 5;
                         Ex.rule_without_threshold "b" Ex.url])
              (Ex.store [Ex.rule "a" Ex.url 5;
                         Ex.rule_without_threshold "b" Ex.url])
              eq_refl eq_refl (or_intror (or_introl eq_refl))
              eq_refl eq_refl) as [[k Hk] _].
  vm_compute in Hk. discriminate Hk.
Qed.

(** *** Idempotence *)

(** The no-op of [create_ratelimit], from any world. *)
Lemma create_ratelimit_no_op
    {St : Type} `{CF : CloudFlare St} (self : CF_API)
    (description disabled threshold period match_ action url r : pyval)
    (pre post : list pyval) (s s1 : St) (t : list call) :
  desired_url match_ = Ok url ->
  rate_limits_get (cf self) (zoneid self) s = (Ok (pre ++ r :: post)%list, s1) ->
  forallb (other_url url) pre = true ->
  matches_url url r = true ->
  fields_equal r
    (make_data description disabled threshold period match_ action) = true ->
  create_ratelimit self description disabled threshold period match_ action
    true (World s t)
  = (Ok (PBool false), World s1 (t ++ [RateLimitsGet (zoneid self)])).
Proof.
  intros Hurl Hget Hpre Hr Heq.
  rewrite (create_ratelimit_run self _ _ _ _ _ _ true url s s1 t
             (pre ++ r :: post)%list (Some r) Hurl Hget
             (search_limits_first _ _ _ _ Hpre Hr)).
  unfold after_search.
  rewrite (has_url_truthy r (matches_url_has_url _ _ Hr)).
  rewrite compare_existing_complete
    by (eauto using fields_equal_complete, make_data_complete).
  cbn [andb]. now rewrite Heq.
Qed.

(** A rule that records the wanted data carries the wanted URL and is equal
    to the wanted data on every compared field. *)
Lemma records_matches
    (description disabled threshold period match_ action url r : pyval) :
  desired_url match_ = Ok url ->
  records (make_data description disabled threshold period match_ action) r ->
  matches_url url r = true
  /\ fields_equal r
       (make_data description disabled threshold period match_ action) = true.
Proof.
  intros Hurl Hrec. split.
  - assert (Hv : getitem r "match" = Ok match_).
    { apply Hrec; [ unfold compare; simpl; tauto | reflexivity ]. }
    unfold matches_url, rule_url. rewrite Hv. cbn [rbind].
    unfold desired_url in Hurl. rewrite Hurl. apply py_eq_refl.
  - unfold fields_equal. apply forallb_forall. intros x Hx.
    pose proof (proj1 (forallb_forall _ _)
                  (make_data_complete description disabled threshold period
                     match_ action) x Hx) as Hd.
    unfold has_field in Hd. unfold field_eq.
    destruct (getitem (make_data description disabled threshold period
                         match_ action) x) as [v | ] eqn:Hv;
      [ | discriminate ].
    rewrite (Hrec x v Hx Hv). apply py_eq_refl.
Qed.

Lemma forallb_app_l {A} (f : A -> bool) (l1 l2 : list A) :
  forallb f (l1 ++ l2) = true -> forallb f l1 = true.
Proof.
  rewrite forallb_app. intros H. now apply andb_true_iff in H.
Qed.

(** After an update under the id of the rule found, the first rule that
    records the data sent has only rules with other URLs before it. *)
Lemma updated_list_first (id data url r : pyval)
    (pre post limits' : list pyval) :
  Forall2 (updated id data) (pre ++ r :: post) limits' ->
  forallb (other_url url) pre = true ->
  has_id id r = true ->
  exists pre' r' post',
    limits' = (pre' ++ r' :: post')%list
    /\ forallb (other_url url) pre' = true
    /\ records data r'.
Proof.
  revert limits'.
  induction pre as [ | x pre IH ]; intros limits' Hall Hpre Hid.
  - simpl in Hall. inversion Hall as [ | ? r' ? post' Hr' _ ]; subst.
    unfold updated in Hr'. rewrite Hid in Hr'.
    exists [], r', post'. repeat split. exact Hr'.
  - simpl in Hall. inversion Hall as [ | ? x' ? l' Hx' Hrest ]; subst.
    simpl in Hpre. apply andb_true_iff in Hpre. destruct Hpre as [Hx Hpre].
    unfold updated in Hx'.
    destruct (has_id id x).
    + exists [], x', l'. repeat split. exact Hx'.
    + subst x'.
      destruct (IH l' Hrest Hpre Hid) as (pre' & r' & post' & -> & Hp & Hr).
      exists (x :: pre'), r', post'. repeat split; [ | exact Hr ].
      simpl. now rewrite Hx, Hp.
Qed.

(** C4.  The service recording faithfully and nothing else touching it,
    when one run of [create_ratelimit] with [update=True] has returned,
    whatever it did, a second run for the same rule sends the list request
    only, leaves the service as it is and returns [False]. *)
Theorem second_run_is_unchanged
    {St : Type} `{CF : CloudFlare St} (self : CF_API)
    (description disabled threshold period match_ action url v : pyval)
    (w0 w1 : world) :
  faithful self ->
  desired_url match_ = Ok url ->
  create_ratelimit self description disabled threshold period match_ action
    true w0 = (Ok v, w1) ->
  create_ratelimit self description disabled threshold period match_ action
    true w1
  = (Ok (PBool false),
     World (remote w1) (trace w1 ++ [RateLimitsGet (zoneid self)])).
Proof.
  intros Hf Hurl Hfirst.
  destruct w0 as [s t].
  set (data := make_data description disabled threshold period match_ action)
    in *.
  destruct (rate_limits_get (cf self) (zoneid self) s) as [res s'] eqn:Hget.
  pose proof (list_reads self Hf _ _ _ Hget) as ->.
  destruct res as [limits | e];
    [ | rewrite (create_ratelimit_list_raises self _ _ _ _ _ _ true url
                   s s t e Hurl Hget) in Hfirst; discriminate ].
  destruct (search_limits url limits) as [found | e] eqn:Hs;
    [ | rewrite (create_ratelimit_search_raises self _ _ _ _ _ _ true url
                   s s t limits e Hurl Hget Hs) in Hfirst; discriminate ].
  rewrite (create_ratelimit_run self _ _ _ _ _ _ true url s s t limits found
             Hurl Hget Hs) in Hfirst.
  unfold after_search in Hfirst. fold data in Hfirst.
  assert (Hcreated :
            forall s2 tr res0,
              rate_limits_post (cf self) (zoneid self) data s = (Ok res0, s2) ->
              forallb (other_url url) limits = true ->
              create_ratelimit self description disabled threshold period
                match_ action true (World s2 tr)
              = (Ok (PBool false),
                 World s2 (tr ++ [RateLimitsGet (zoneid self)]))).
  { intros s2 tr res0 Hpost Hnone.
    destruct (create_records self Hf _ _ _ _ _ Hpost Hget)
      as (pre & post & r & -> & Hrec & Hget2).
    destruct (records_matches _ _ _ _ _ _ url r Hurl Hrec) as [Hr Heq].
    apply (create_ratelimit_no_op self _ _ _ _ _ _ url r pre post s2 s2 tr
             Hurl Hget2 (forallb_app_l _ _ _ Hnone) Hr Heq). }
  destruct found as [r | ].
  - destruct (search_limits_some_inv _ _ _ Hs)
      as (pre & post & -> & Hpre & Hr).
    rewrite (has_url_truthy r (matches_url_has_url _ _ Hr)) in Hfirst.
    cbn [andb] in Hfirst.
    destruct (compare_existing_ratelimit r data) as [[ | ] | e] eqn:Hcmp;
      [ | | discriminate ].
    + (* unchanged the first time *)
      inversion Hfirst; subst. cbn [remote trace].
      rewrite (create_ratelimit_run self _ _ _ _ _ _ true url s s _ _
                 (Some r) Hurl Hget Hs).
      unfold after_search. fold data.
      rewrite (has_url_truthy r (matches_url_has_url _ _ Hr)).
      cbn [andb]. now rewrite Hcmp.
    + (* updated the first time *)
      destruct (getitem r "id") as [id | e] eqn:Hid; [ | discriminate ].
      destruct (rate_limits_put (cf self) (zoneid self) id data s)
        as [res s2] eqn:Hput.
      inversion Hfirst; subst. cbn [remote trace].
      destruct (update_records self Hf _ _ _ _ _ _ Hput Hget)
        as (limits' & Hall & Hget2).
      assert (Hhas : has_id id r = true).
      { unfold has_id. rewrite Hid. apply py_eq_refl. }
      destruct (updated_list_first id data url r pre post limits' Hall Hpre
                  Hhas)
        as (pre' & r' & post' & -> & Hpre' & Hrec).
      destruct (records_matches _ _ _ _ _ _ url r' Hurl Hrec) as [Hr' Heq].
      apply (create_ratelimit_no_op self _ _ _ _ _ _ url r' pre' post' s2 s2
               _ Hurl Hget2 Hpre' Hr' Heq).
  - (* created the first time *)
    destruct (rate_limits_post (cf self) (zoneid self) data s)
      as [res s2] eqn:Hpost.
    inversion Hfirst; subst. cbn [remote trace].
    apply (Hcreated s2 _ v eq_refl).
    now apply search_limits_none_inv.
Qed.

(** The recording store records faithfully. *)
Lemma lookup_app_some (k : string) (v : pyval) (d d' : list (string * pyval)) :
  lookup k d = Some v -> lookup k (d ++ d')%list = Some v.
Proof.
  induction d as [ | [k' v'] d IH ]; simpl.
  - discriminate.
  - destruct (String.eqb k k'); [ trivial | exact IH ].
Qed.

Lemma stored_records (id data : pyval) : records data (stored id data).
Proof.
  intros x v _ Hv. destruct data as [ | | | | | d ]; try discriminate Hv.
  simpl in *. destruct (lookup x d) as [a | ] eqn:Hx; [ | discriminate ].
  now rewrite (lookup_app_some x a d _ Hx).
Qed.

Lemma recording_faithful (self : CF_API) : faithful (St := recording) self.
Proof.
  constructor.
  - intros s res s' H. simpl in H. now inversion H.
  - intros data s res s2 limits Hpost Hget. simpl in Hpost, Hget.
    unfold rec_post in Hpost. inversion Hpost; subst. inversion Hget; subst.
    exists (rec_limits s), [], (stored (PStr (str_Z (rec_next s))) data).
    repeat split.
    + now rewrite app_nil_r.
    + apply stored_records.
  - intros id data s res s2 limits Hput Hget. simpl in Hput, Hget.
    unfold rec_put in Hput. inversion Hget; subst.
    destruct (existsb (has_id id) (rec_limits s)); inversion Hput; subst.
    eexists. split; [ | reflexivity ]. simpl.
    clear Hput Hget.
    induction (rec_limits s) as [ | r l IH ]; simpl; constructor.
    + unfold updated. destruct (has_id id r);
        [ apply stored_records | reflexivity ].
    + exact IH.
Qed.

Lemma second_run_is_unchanged_witness :
  Ex.reconcile true
    (World {| rec_zones := [Ex.zone];
              rec_limits := [stored (PStr "a") Ex.data];
              rec_next := 100 |}
       [RateLimitsGet (PStr "zone-1");
        RateLimitsPut (PStr "zone-1") (PStr "a") Ex.data])
  = (Ok (PBool false),
     World {| rec_zones := [Ex.zone];
              rec_limits := [stored (PStr "a") Ex.data];
              rec_next := 100 |}
       [RateLimitsGet (PStr "zone-1");
        RateLimitsPut (PStr "zone-1") (PStr "a") Ex.data;
        RateLimitsGet (PStr "zone-1")]).
Proof.
  exact (second_run_is_unchanged Ex.api (PStr "login") (PBool false)
           (PInt 60) (PInt 60) (Ex.match_for Ex.url) Ex.action (PStr Ex.url)
           (stored (PStr "a") Ex.data)
           (World (Ex.store [Ex.rule "a" Ex.url 5]) [])
           (World {| rec_zones := [Ex.zone];
                     rec_limits := [stored (PStr "a") Ex.data];
                     rec_next := 100 |}
              [RateLimitsGet (PStr "zone-1");
               RateLimitsPut (PStr "zone-1") (PStr "a") Ex.data])
           (recording_faithful Ex.api) eq_refl eq_refl).
Defined.

(** *** The steps of main *)

Section MainSteps.

Context {St : Type} `{CF : CloudFlare St}.

Variable HAS_CF : bool.
Variable p : params.


Lemma main_threshold_out (zs : list Z) (w : world) :
  sanitize (match_response_status p) = Ok zs ->
  threshold_out p = true ->
  main HAS_CF p w = (Raise (SystemExit (FailJson threshold_msg)), w).
Proof.
  intros Hs Ht. unfold main, bind, lift. rewrite Hs.
  unfold threshold_out in Ht. now rewrite Ht.
Qed.

Lemma main_period_out (zs : list Z) (w : world) :
  sanitize (match_response_status p) = Ok zs ->
  threshold_out p = false ->
  period_out p = true ->
  main HAS_CF p w = (Raise (SystemExit (FailJson period_msg)), w).
Proof.
  intros Hs Ht Hp. unfold main, bind, lift. rewrite Hs.
  unfold threshold_out in Ht. unfold period_out in Hp. now rewrite Ht, Hp.
Qed.

Lemma main_in_range (zs : list Z) (w : world) :
  sanitize (match_response_status p) = Ok zs ->
  threshold_out p = false ->
  period_out p = false ->
  HAS_CF = true ->
  main HAS_CF p w
  = meat_and_potatoes p (build_match p zs) (build_action p) w.
Proof.
  intros Hs Ht Hp ->. unfold main, bind, lift. rewrite Hs.
  unfold threshold_out in Ht. unfold period_out in Hp. now rewrite Ht, Hp.
Qed.

End MainSteps.

Example threshold_msg_text :
  threshold_msg = "Threshold must be between 2 and 1000000".
Proof. reflexivity. Qed.

Example period_msg_text :
  period_msg = "Period must be between 2 and 86400".
Proof. reflexivity. Qed.

(** *** Bounds *)

Lemma out_of_range_cases (p : params) :
  out_of_range p ->
  threshold_out p = true \/ (threshold_out p = false /\ period_out p = true).
Proof.
  unfold out_of_range, threshold_out, period_out, THRESHOLD_MIN,
    THRESHOLD_MAX, PERIOD_MIN, PERIOD_MAX.
  intros H.
  destruct (threshold p <? 2) eqn:E1, (threshold p >? 1000000) eqn:E2,
    (period p <? 2) eqn:E3, (period p >? 86400) eqn:E4;
    simpl; auto;
    rewrite Z.ltb_ge in E1, E3; rewrite Z.gtb_ltb, Z.ltb_ge in E2, E4; lia.
Qed.

(** C5, as amended.  When the status codes all convert to integers and the
    threshold is outside [2, 1000000] or the period outside [2, 86400],
    [main] ends in [fail_json] with the out-of-range message (the
    threshold's when the threshold is out, the period's otherwise), whether
    or not the CloudFlare package is there, and it has sent no request: the
    zone is not looked up, nothing is listed, created or updated. *)
Theorem out_of_range_fails_before_any_request
    {St : Type} `{CF : CloudFlare St} (HAS_CF : bool) (p : params)
    (zs : list Z) (s : St) :
  sanitize (match_response_status p) = Ok zs ->
  out_of_range p ->
  run (main HAS_CF p) s
  = (Raise (SystemExit
              (FailJson (if threshold_out p then threshold_msg
                         else period_msg))),
     World s []).
Proof.
  intros Hs Hout. unfold run.
  destruct (out_of_range_cases p Hout) as [Ht | [Ht Hp]]; rewrite Ht.
  - now apply main_threshold_out with (zs := zs).
  - now apply main_period_out with (zs := zs).
Qed.

Lemma out_of_range_fails_before_any_request_witness :
  (run (main true (Ex.params_with 1 60 [PStr "401"])) (Ex.store [])
   = (Raise (SystemExit (FailJson threshold_msg)), World (Ex.store []) []))
  /\ (run (main true (Ex.params_with 1000001 60 [PStr "401"])) (Ex.store [])
      = (Raise (SystemExit (FailJson threshold_msg)), World (Ex.store []) []))
  /\ (run (main true (Ex.params_with 60 1 [PStr "401"])) (Ex.store [])
      = (Raise (SystemExit (FailJson period_msg)), World (Ex.store []) []))
  /\ (run (main true (Ex.params_with 60 86401 [PStr "401"])) (Ex.store [])
      = (Raise (SystemExit (FailJson period_msg)), World (Ex.store []) [])).
Proof.
  split; [ | split; [ | split ] ].
  - apply (out_of_range_fails_before_any_request true
             (Ex.params_with 1 60 [PStr "401"]) [401] (Ex.store []) eq_refl).
    unfold out_of_range; simpl; lia.
  - apply (out_of_range_fails_before_any_request true
             (Ex.params_with 1000001 60 [PStr "401"]) [401] (Ex.store [])
             eq_refl).
    unfold out_of_range; simpl; lia.
  - apply (out_of_range_fails_before_any_request true
             (Ex.params_with 60 1 [PStr "401"]) [401] (Ex.store []) eq_refl).
    unfold out_of_range; simpl; lia.
  - apply (out_of_range_fails_before_any_request true
             (Ex.params_with 60 86401 [PStr "401"]) [401] (Ex.store [])
             eq_refl).
    unfold out_of_range; simpl; lia.
Defined.

(** What the run does on a threshold of 1 with the status code "abc": the
    conversion of the status codes comes first and raises. *)
Example bad_status_comes_first :
  run (main true (Ex.params_with 1 60 [PStr "abc"])) (Ex.store [])
  = (Raise ValueError, World (Ex.store []) []).
Proof. reflexivity. Qed.

(** C5, as stated, fails: with a threshold of 1 and the status code "abc"
    the run ends with [ValueError], not with an out-of-range failure. *)
Lemma out_of_range_behind_a_bad_status :
  ~ out_of_range_fails_whatever_the_status.
Proof.
  intros H.
  destruct (H recording recording_store true
              (Ex.params_with 1 60 [PStr "abc"]) (Ex.store []))
    as [[Hrun | Hrun] _].
  - unfold out_of_range; simpl; lia.
  - vm_compute in Hrun. discriminate Hrun.
  - vm_compute in Hrun. discriminate Hrun.
Qed.

(** *** Status codes *)

Lemma digits_of_uint_acc (d : Decimal.uint) (acc : positive) :
  digits (Z.pos acc) (NilEmpty.string_of_uint d)
  = Some (Z.pos (Pos.of_uint_acc d acc)).
Proof.
  revert acc.
  induction d as [ | d IH | d IH | d IH | d IH | d IH | d IH | d IH | d IH
                   | d IH | d IH ];
    intros acc; cbn [NilEmpty.string_of_uint digits Pos.of_uint_acc];
    [ reflexivity | .. ];
    match goal with
    | |- context [digit_of ?c] =>
        let v := eval vm_compute in (digit_of c) in
        change (digit_of c) with v; cbv iota
    end;
    rewrite <- IH; f_equal; lia.
Qed.

Lemma digits_of_uint (d : Decimal.uint) :
  digits 0 (NilEmpty.string_of_uint d) = Some (Z.of_N (Pos.of_uint d)).
Proof.
  induction d as [ | d IH | d IH | d IH | d IH | d IH | d IH | d IH | d IH
                   | d IH | d IH ];
    cbn [NilEmpty.string_of_uint digits Pos.of_uint];
    [ reflexivity | .. ];
    match goal with
    | |- context [digit_of ?c] =>
        let v := eval vm_compute in (digit_of c) in
        change (digit_of c) with v; cbv iota
    end;
    [ exact IH | .. ];
    cbn [Z.mul Z.add Z.of_N]; apply digits_of_uint_acc.
Qed.

Lemma unsigned_of_uint (d : Decimal.uint) :
  d <> Decimal.Nil ->
  unsigned (NilEmpty.string_of_uint d) = Some (Z.of_N (Pos.of_uint d)).
Proof.
  intros Hd. rewrite <- digits_of_uint.
  destruct d; [ contradiction | reflexivity .. ].
Qed.

Lemma unsigned_of_pos (p : positive) :
  unsigned (NilEmpty.string_of_uint (Pos.to_uint p)) = Some (Z.pos p).
Proof.
  rewrite unsigned_of_uint by apply DecimalPos.Unsigned.to_uint_nonnil.
  now rewrite DecimalPos.Unsigned.of_to.
Qed.

(** [int(str(z))] is [z]. *)
Lemma int_of_string_str_Z (z : Z) : int_of_string (str_Z z) = Some z.
Proof.
  unfold str_Z. destruct z as [ | p | p ]; cbn [Z.to_int NilEmpty.string_of_int].
  - reflexivity.
  - pose proof (unsigned_of_pos p) as H.
    pose proof (DecimalPos.Unsigned.to_uint_nonnil p) as Hn.
    unfold int_of_string.
    destruct (Pos.to_uint p); [ contradiction | exact H .. ].
  - unfold int_of_string. cbn [lstrip is_space].
    change (is_space "-") with false. cbv iota.
    change (Ascii.eqb "-" "+") with false.
    change (Ascii.eqb "-" "-") with true. cbv iota.
    now rewrite unsigned_of_pos.
Qed.







Lemma sanitize_numerals (xs : list pyval) (zs : list Z) :
  Forall2 numeral xs zs -> sanitize xs = Ok zs.
Proof.
  induction 1 as [ | x z xs zs Hx _ IH ]; cbn [sanitize].
  - reflexivity.
  - destruct Hx as [-> | ->]; cbn [py_int rbind].
    + rewrite int_of_string_str_Z. cbn [rbind]. now rewrite IH.
    + now rewrite IH.
Qed.













(** *** Zone lookup *)

Lemma CF_API_init_no_zone
    {St : Type} `{CF : CloudFlare St} (zone : string)
    (email api : option string) (s s1 : St) (t : list call) :
  zones_get (make_client email api) zone s = (Ok [], s1) ->
  CF_API_init zone email api (World s t)
  = (Raise (UserWarning ("Zone '" ++ zone ++ "' not found")),
     World s1 (t ++ [ZonesGet zone])).
Proof.
  intros Hz.
  unfold CF_API_init, bind, try_except, request, lift, raise.
  cbn [remote trace]. now rewrite Hz.
Qed.

(** C9.  When the lookup of the zone name answers with no zone, the
    construction of [CF_API] raises [UserWarning] saying that the zone was
    not found; [main] turns it into a failure reported as a parameter issue,
    which is not the report of an error of the remote API; and the zone
    lookup is the only request sent: nothing is listed, created or
    updated. *)
Theorem unknown_zone_is_a_parameter_issue
    {St : Type} `{CF : CloudFlare St} (p : params) (zs : list Z) (s s1 : St) :
  zones_get (make_client (account_email p) (account_api_token p))
    (zone_identifier p) s = (Ok [], s1) ->
  let not_found := "Zone '" ++ zone_identifier p ++ "' not found" in
  run (CF_API_init (zone_identifier p) (account_email p)
         (account_api_token p)) s
  = (Raise (UserWarning not_found), World s1 [ZonesGet (zone_identifier p)])
  /\ (sanitize (match_response_status p) = Ok zs ->
      threshold_out p = false ->
      period_out p = false ->
      run (main true p) s
      = (Raise (SystemExit (FailJson ("Parameter issue, " ++ not_found))),
         World s1 [ZonesGet (zone_identifier p)]))
  /\ (forall msg, "Parameter issue, " ++ not_found <> "Errr " ++ msg).
Proof.
  intros Hz not_found. split; [ | split ].
  - unfold run. now rewrite (CF_API_init_no_zone _ _ _ s s1 [] Hz).
  - intros Hs Ht Hp. unfold run.
    rewrite (main_in_range true p zs _ Hs Ht Hp eq_refl).
    unfold meat_and_potatoes, try_except, bind.
    now rewrite (CF_API_init_no_zone _ _ _ s s1 [] Hz).
  - intros msg H. discriminate H.
Qed.

Lemma unknown_zone_is_a_parameter_issue_witness :
  run (main true (Ex.params_with 60 60 [PStr "401"]))
    {| rec_zones := []; rec_limits := [Ex.rule "a" Ex.url 5];
       rec_next := 100 |}
  = (Raise (SystemExit
              (FailJson "Parameter issue, Zone 'example.com' not found")),
     World {| rec_zones := []; rec_limits := [Ex.rule "a" Ex.url 5];
              rec_next := 100 |}
       [ZonesGet "example.com"]).
Proof.
  refine (proj1 (proj2 (unknown_zone_is_a_parameter_issue
                          (Ex.params_with 60 60 [PStr "401"]) [401]
                          {| rec_zones := [];
                             rec_limits := [Ex.rule "a" Ex.url 5];
                             rec_next := 100 |}
                          {| rec_zones := [];
                             rec_limits := [Ex.rule "a" Ex.url 5];
                             rec_next := 100 |} _)) _ _ _);
    reflexivity.
Defined.

(** The whole of [main] on the recording store: the zone is found, the rule
    on the wanted URL has another threshold, it is updated and the module
    reports a change. *)
Example main_updates :
  run (main true (Ex.params_with 60 60 [PStr "401"]))
    (Ex.store [Ex.rule "a" Ex.url 5])
  = (Raise (SystemExit (ExitJson true (Some (stored (PStr "a") Ex.data)))),
     World {| rec_zones := [Ex.zone];
              rec_limits := [stored (PStr "a") Ex.data];
              rec_next := 100 |}
       [ZonesGet "example.com"; RateLimitsGet (PStr "zone-1");
        RateLimitsPut (PStr "zone-1") (PStr "a") Ex.data]).
Proof. reflexivity. Qed.

(** *** More on the search *)

Lemma search_limits_stops (url r : pyval) (pre post : list pyval) (e : exn) :
  forallb (other_url url) pre = true ->
  rule_url r = Raise e ->
  search_limits url (pre ++ r :: post) = Raise e.
Proof.
  intros Hpre Hr.
  induction pre as [ | x pre IH ].
  - simpl app. rewrite search_limits_cons. now rewrite Hr.
  - simpl in Hpre. apply andb_true_iff in Hpre. destruct Hpre as [Hx Hpre].
    simpl app. rewrite search_limits_cons. unfold other_url in Hx.
    destruct (rule_url x) as [u | ]; [ | discriminate ].
    apply negb_true_iff in Hx. rewrite Hx. now apply IH.
Qed.

Lemma rule_url_raises_which (rl : pyval) (e : exn) :
  rule_url rl = Raise e ->
  e = KeyError "match" \/ e = KeyError "request" \/ e = KeyError "url"
  \/ e = TypeError.
Proof.
  unfold rule_url, rbind. intros H.
  destruct (getitem rl "match") as [m | e1] eqn:H1.
  - destruct (getitem m "request") as [r | e2] eqn:H2.
    + destruct (getitem_raises _ _ _ H) as [-> | ->]; tauto.
    + inversion H; subst.
      destruct (getitem_raises _ _ _ H2) as [-> | ->]; tauto.
  - inversion H; subst.
    destruct (getitem_raises _ _ _ H1) as [-> | ->]; tauto.
Qed.

Lemma get_existing_ratelimit_id_raises
    {St : Type} `{CF : CloudFlare St} (self : CF_API) (url : pyval)
    (limits : list pyval) (e : exn) (s s1 : St) (t : list call) :
  rate_limits_get (cf self) (zoneid self) s = (Ok limits, s1) ->
  search_limits url limits = Raise e ->
  get_existing_ratelimit_id self url (World s t)
  = (Raise e, World s1 (t ++ [RateLimitsGet (zoneid self)])).
Proof.
  intros Hget Hs.
  pose proof (search_limits_raises _ _ _ Hs) as Hne.
  unfold get_existing_ratelimit_id, list_zone_ratelimits, bind, lift,
    try_except, request, ret.
  cbn [remote trace]. rewrite Hget, Hs.
  destruct e; try reflexivity. now contradiction Hne.
Qed.

(** X1.  Whatever [get_existing_ratelimit_id] returns after a list that was
    answered is read off the list: either [None], and then every listed rule
    carries a URL other than the wanted one; or a listed rule that carries
    the wanted URL, every rule listed before it carrying another one.  The
    list request is the only request sent. *)
Theorem search_answer_is_first_match
    {St : Type} `{CF : CloudFlare St} (self : CF_API) (url v : pyval)
    (limits : list pyval) (s s1 : St) (w : world) :
  rate_limits_get (cf self) (zoneid self) s = (Ok limits, s1) ->
  run (get_existing_ratelimit_id self url) s = (Ok v, w) ->
  w = World s1 [RateLimitsGet (zoneid self)]
  /\ ((v = PNone /\ forallb (other_url url) limits = true)
      \/ (exists pre post,
             limits = (pre ++ v :: post)%list
             /\ forallb (other_url url) pre = true
             /\ matches_url url v = true)).
Proof.
  intros Hget Hrun. unfold run in Hrun.
  destruct (search_limits url limits) as [found | e] eqn:Hs.
  - rewrite (get_existing_ratelimit_id_run self url limits found s s1 []
               Hget Hs) in Hrun.
    inversion Hrun; subst. split; [ reflexivity | ].
    destruct found as [r | ].
    + right. now apply search_limits_some_inv.
    + left. split; [ reflexivity | now apply search_limits_none_inv ].
  - rewrite (get_existing_ratelimit_id_raises self url limits e s s1 []
               Hget Hs) in Hrun.
    discriminate.
Qed.

Lemma search_answer_is_first_match_witness :
  (exists pre post,
      [Ex.rule "a" "example.com/other" 5; Ex.rule "b" Ex.url 60;
       Ex.rule "c" Ex.url 5]
      = (pre ++ Ex.rule "b" Ex.url 60 :: post)%list
      /\ forallb (other_url (PStr Ex.url)) pre = true
      /\ matches_url (PStr Ex.url) (Ex.rule "b" Ex.url 60) = true).
Proof.
  assert (Hget : rate_limits_get (cf Ex.api) (zoneid Ex.api)
                   (Ex.store [Ex.rule "a" "example.com/other" 5;
                              Ex.rule "b" Ex.url 60; Ex.rule "c" Ex.url 5])
                 = (Ok [Ex.rule "a" "example.com/other" 5;
                        Ex.rule "b" Ex.url 60; Ex.rule "c" Ex.url 5],
                    Ex.store [Ex.rule "a" "example.com/other" 5;
                              Ex.rule "b" Ex.url 60; Ex.rule "c" Ex.url 5]))
    by reflexivity.
  assert (Hrun : run (get_existing_ratelimit_id Ex.api (PStr Ex.url))
                   (Ex.store [Ex.rule "a" "example.com/other" 5;
                              Ex.rule "b" Ex.url 60; Ex.rule "c" Ex.url 5])
                 = (Ok (Ex.rule "b" Ex.url 60),
                    World (Ex.store [Ex.rule "a" "example.com/other" 5;
                                     Ex.rule "b" Ex.url 60;
                                     Ex.rule "c" Ex.url 5])
                      [RateLimitsGet (PStr "zone-1")]))
    by reflexivity.
  destruct (search_answer_is_first_match Ex.api (PStr Ex.url) _ _ _ _ _
              Hget Hrun) as [_ [[H _] | H]].
  - discriminate H.
  - exact H.
Defined.

(** X2.  A listed rule without [match], [request] or [url], met before any
    rule on the wanted URL, ends the search with the [KeyError] of the
    missing key (or [TypeError] when a value on the way is not a dict); the
    [except IndexError] clause does not apply.  [create_ratelimit] ends with
    the same exception after the list request alone, whatever [update] is:
    nothing is created or updated. *)
Theorem malformed_rule_aborts
    {St : Type} `{CF : CloudFlare St} (self : CF_API)
    (description disabled threshold period match_ action url r : pyval)
    (update : bool) (pre post : list pyval) (e : exn) (s s1 : St) :
  desired_url match_ = Ok url ->
  rate_limits_get (cf self) (zoneid self) s = (Ok (pre ++ r :: post)%list, s1) ->
  forallb (other_url url) pre = true ->
  rule_url r = Raise e ->
  (e = KeyError "match" \/ e = KeyError "request" \/ e = KeyError "url"
   \/ e = TypeError)
  /\ run (get_existing_ratelimit_id self url) s
     = (Raise e, World s1 [RateLimitsGet (zoneid self)])
  /\ run (create_ratelimit self description disabled threshold period match_
            action update) s
     = (Raise e, World s1 [RateLimitsGet (zoneid self)]).
Proof.
  intros Hurl Hget Hpre Hr.
  pose proof (search_limits_stops url r pre post e Hpre Hr) as Hs.
  split; [ now apply rule_url_raises_which with (rl := r) | split ].
  - unfold run.
    now rewrite (get_existing_ratelimit_id_raises self url _ e s s1 []
                   Hget Hs).
  - unfold run.
    now rewrite (create_ratelimit_search_raises self _ _ _ _ _ _ update url
                   s s1 [] _ e Hurl Hget Hs).
Qed.

Lemma malformed_rule_aborts_witness :
  run (Ex.reconcile false)
    (Ex.store [PDict [("id", PStr "a")]; Ex.rule "b" Ex.url 60])
  = (Raise (KeyError "match"),
     World (Ex.store [PDict [("id", PStr "a")]; Ex.rule "b" Ex.url 60])
       [RateLimitsGet (PStr "zone-1")]).
Proof.
  refine (proj2 (proj2 (malformed_rule_aborts Ex.api (PStr "login")
                          (PBool false) (PInt 60) (PInt 60)
                          (Ex.match_for Ex.url) Ex.action (PStr Ex.url)
                          (PDict [("id", PStr "a")]) false
                          [] [Ex.rule "b" Ex.url 60] (KeyError "match")
                          (Ex.store [PDict [("id", PStr "a")];
                                     Ex.rule "b" Ex.url 60])
                          (Ex.store [PDict [("id", PStr "a")];
                                     Ex.rule "b" Ex.url 60])
                          _ _ _ _)));
    reflexivity.
Defined.

(** *** More on the comparison *)

Lemma compare_loop_ext (xs : list string) (rl1 rl2 proposed : pyval)
    (the_same : bool) :
  (forall x, In x xs -> getitem rl1 x = getitem rl2 x) ->
  compare_loop xs rl1 proposed the_same
  = compare_loop xs rl2 proposed the_same.
Proof.
  revert the_same.
  induction xs as [ | x xs IH ]; intros the_same Hext.
  - reflexivity.
  - cbn [compare_loop]. rewrite (Hext x (or_introl eq_refl)).
    destruct (getitem rl2 x) as [a | e]; [ | reflexivity ].
    cbn [rbind]. destruct (getitem proposed x) as [b | e]; [ | reflexivity ].
    cbn [rbind]. apply IH. intros y Hy. apply Hext. now right.
Qed.

(** X3.  The comparison reads the six compared fields of the listed rule
    and nothing else: two rules that agree on them (whatever their id and
    their other fields) compare alike with any proposal, in the result and
    in the exception. *)
Theorem compare_reads_compared_fields_only (rl1 rl2 proposed : pyval) :
  (forall x, In x compare -> getitem rl1 x = getitem rl2 x) ->
  compare_existing_ratelimit rl1 proposed
  = compare_existing_ratelimit rl2 proposed.
Proof.
  intros Hext. unfold compare_existing_ratelimit.
  now rewrite (compare_loop_ext compare rl1 rl2 proposed true Hext).
Qed.

Lemma compare_reads_compared_fields_only_witness :
  compare_existing_ratelimit (Ex.rule "a" Ex.url 60) Ex.data
  = compare_existing_ratelimit
      (PDict [("created_on", PStr "2017-01-01"); ("id", PStr "b");
              ("action", Ex.action); ("period", PInt 60);
              ("threshold", PInt 60); ("match", Ex.match_for Ex.url);
              ("description", PStr "login"); ("disabled", PBool false)])
      Ex.data.
Proof.
  apply compare_reads_compared_fields_only.
  intros x Hx. unfold compare in Hx. simpl in Hx.
  destruct Hx as [<- | [<- | [<- | [<- | [<- | [<- | [<- | []]]]]]]];
    reflexivity.
Defined.

Lemma forallb_field_eq_true (rl proposed : pyval) (xs : list string) :
  forallb (field_eq rl proposed) xs = true <->
  (forall x, In x xs ->
             exists a b, getitem rl x = Ok a /\ getitem proposed x = Ok b
                         /\ py_eq a b = true).
Proof.
  rewrite forallb_forall. split; intros H x Hx.
  - specialize (H x Hx). unfold field_eq in H.
    destruct (getitem rl x) as [a | ]; [ | discriminate ].
    destruct (getitem proposed x) as [b | ]; [ | discriminate ].
    now exists a, b.
  - destruct (H x Hx) as (a & b & Ha & Hb & Hab).
    unfold field_eq. now rewrite Ha, Hb.
Qed.

(** X4.  For a listed rule and a proposal that both carry the six compared
    fields, [compare_existing_ratelimit] does not raise: it returns [True]
    when every compared field of the rule is [==] to the proposal's, and
    [False] when some compared field differs. *)
Theorem compare_decides_field_equality (rl proposed : pyval) :
  complete rl = true ->
  complete proposed = true ->
  (compare_existing_ratelimit rl proposed = Ok true <->
   (forall x, In x compare ->
              exists a b, getitem rl x = Ok a /\ getitem proposed x = Ok b
                          /\ py_eq a b = true))
  /\ (compare_existing_ratelimit rl proposed = Ok false <->
      (exists x a b, In x compare /\ getitem rl x = Ok a
                     /\ getitem proposed x = Ok b /\ py_eq a b = false)).
Proof.
  intros Hrl Hp. rewrite (compare_existing_complete rl proposed Hrl Hp).
  unfold fields_equal. split.
  - rewrite <- forallb_field_eq_true. split; [ congruence | intros -> ].
    reflexivity.
  - split.
    + intros Hf.
      assert (Hfalse : forallb (field_eq rl proposed) compare = false)
        by congruence.
      clear Hf.
      assert (Hex : existsb (fun x => negb (field_eq rl proposed x)) compare
                    = true).
      { induction compare as [ | x xs IH ]; simpl in *; [ discriminate | ].
        destruct (field_eq rl proposed x); simpl in *; auto. }
      apply existsb_exists in Hex. destruct Hex as (x & Hx & Hneg).
      apply negb_true_iff in Hneg.
      pose proof (proj1 (forallb_forall _ _) Hrl x Hx) as H1.
      pose proof (proj1 (forallb_forall _ _) Hp x Hx) as H2.
      unfold has_field in H1, H2. unfold field_eq in Hneg.
      destruct (getitem rl x) as [a | ] eqn:Ha; [ | discriminate ].
      destruct (getitem proposed x) as [b | ] eqn:Hb; [ | discriminate ].
      exists x, a, b. auto.
    + intros (x & a & b & Hx & Ha & Hb & Hab). f_equal.
      destruct (forallb (field_eq rl proposed) compare) eqn:E;
        [ | reflexivity ].
      pose proof (proj1 (forallb_forall _ _) E x Hx) as Hf.
      unfold field_eq in Hf. rewrite Ha, Hb in Hf. congruence.
Qed.

Lemma compare_decides_field_equality_witness :
  compare_existing_ratelimit (Ex.rule "a" Ex.url 5) Ex.data = Ok false.
Proof.
  apply (proj2 (compare_decides_field_equality (Ex.rule "a" Ex.url 5) Ex.data
                  eq_refl eq_refl)).
  exists "threshold", (PInt 5), (PInt 60).
  split; [ unfold compare; simpl; tauto | ].
  split; [ reflexivity | split; reflexivity ].
Defined.

(** X5.  A rule that carries the six compared fields is the same as itself:
    compared with itself, [compare_existing_ratelimit] returns [True]. *)
Theorem compare_with_itself (rl : pyval) :
  complete rl = true ->
  compare_existing_ratelimit rl rl = Ok true.
Proof.
  intros Hc. rewrite (compare_existing_complete rl rl Hc Hc). f_equal.
  unfold fields_equal. apply forallb_forall. intros x Hx.
  pose proof (proj1 (forallb_forall _ _) Hc x Hx) as H.
  unfold has_field in H. unfold field_eq.
  destruct (getitem rl x) as [a | ]; [ apply py_eq_refl | discriminate ].
Qed.

Lemma compare_with_itself_witness :
  compare_existing_ratelimit (Ex.rule "a" Ex.url 5) (Ex.rule "a" Ex.url 5)
  = Ok true.
Proof.
  apply (compare_with_itself (Ex.rule "a" Ex.url 5)). reflexivity.
Defined.

(** *** Edges of create_ratelimit *)

Lemma desired_url_raises_which (match_ : pyval) (e : exn) :
  desired_url match_ = Raise e ->
  e = KeyError "request" \/ e = KeyError "url" \/ e = TypeError.
Proof.
  unfold desired_url, rbind. intros H.
  destruct (getitem match_ "request") as [r | e1] eqn:H1.
  - destruct (getitem_raises _ _ _ H) as [-> | ->]; tauto.
  - inversion H; subst.
    destruct (getitem_raises _ _ _ H1) as [-> | ->]; tauto.
Qed.

(** X6.  When the rule to update carries no id: the first listed rule on the
    wanted URL has the six compared fields, differs from the wanted rule on
    one of them, and has no [id] key.  Then [create_ratelimit] with
    [update=True] raises [KeyError] on [id] after the list request alone; the
    update is not sent. *)
Theorem update_without_id_raises
    {St : Type} `{CF : CloudFlare St} (self : CF_API)
    (description disabled threshold period match_ action url r : pyval)
    (pre post : list pyval) (s s1 : St) :
  desired_url match_ = Ok url ->
  rate_limits_get (cf self) (zoneid self) s = (Ok (pre ++ r :: post)%list, s1) ->
  forallb (other_url url) pre = true ->
  matches_url url r = true ->
  complete r = true ->
  fields_equal r
    (make_data description disabled threshold period match_ action) = false ->
  has_field r "id" = false ->
  run (create_ratelimit self description disabled threshold period match_
         action true) s
  = (Raise (KeyError "id"), World s1 [RateLimitsGet (zoneid self)]).
Proof.
  intros Hurl Hget Hpre Hr Hc Hne Hid. unfold run.
  rewrite (create_ratelimit_run self _ _ _ _ _ _ true url s s1 []
             (pre ++ r :: post)%list (Some r) Hurl Hget
             (search_limits_first _ _ _ _ Hpre Hr)).
  unfold after_search.
  pose proof (matches_url_has_url _ _ Hr) as Hu.
  rewrite (has_url_truthy r Hu).
  rewrite compare_existing_complete by (eauto using make_data_complete).
  rewrite Hne. cbn [andb].
  destruct r as [ | | | | | d ]; try discriminate Hu.
  unfold has_field in Hid. cbn [getitem] in *.
  destruct (lookup "id" d); [ discriminate | reflexivity ].
Qed.

Lemma update_without_id_raises_witness :
  run (Ex.reconcile true)
    (Ex.store [PDict [("disabled", PBool false);
                      ("description", PStr "login");
                      ("match", Ex.match_for Ex.url);
                      ("threshold", PInt 5);
                      ("period", PInt 60);
                      ("action", Ex.action)]])
  = (Raise (KeyError "id"),
     World (Ex.store [PDict [("disabled", PBool false);
                             ("description", PStr "login");
                             ("match", Ex.match_for Ex.url);
                             ("threshold", PInt 5);
                             ("period", PInt 60);
                             ("action", Ex.action)]])
       [RateLimitsGet (PStr "zone-1")]).
Proof.
  refine (update_without_id_raises Ex.api (PStr "login") (PBool false)
            (PInt 60) (PInt 60) (Ex.match_for Ex.url) Ex.action (PStr Ex.url)
            (PDict [("disabled", PBool false);
                    ("description", PStr "login");
                    ("match", Ex.match_for Ex.url);
                    ("threshold", PInt 5);
                    ("period", PInt 60);
                    ("action", Ex.action)])
            [] []
            (Ex.store [PDict [("disabled", PBool false);
                              ("description", PStr "login");
                              ("match", Ex.match_for Ex.url);
                              ("threshold", PInt 5);
                              ("period", PInt 60);
                              ("action", Ex.action)]])
            _ _ _ _ _ _ _ _);
    reflexivity.
Defined.

(** X7.  When the wanted [match] has no [request] or no [url] in it,
    [create_ratelimit] raises on that lookup ([KeyError] on the missing key,
    [TypeError] when [match] or its [request] is not a dict) and sends
    nothing, not even the list request. *)
Theorem no_url_no_request
    {St : Type} `{CF : CloudFlare St} (self : CF_API)
    (description disabled threshold period match_ action : pyval)
    (update : bool) (e : exn) (w : world) :
  desired_url match_ = Raise e ->
  (e = KeyError "request" \/ e = KeyError "url" \/ e = TypeError)
  /\ create_ratelimit self description disabled threshold period match_
       action update w
     = (Raise e, w).
Proof.
  intros Hurl. split; [ now apply desired_url_raises_which with match_ | ].
  unfold create_ratelimit, bind, lift. now rewrite Hurl.
Qed.

Lemma no_url_no_request_witness :
  create_ratelimit Ex.api (PStr "login") (PBool false) (PInt 60) (PInt 60)
    (PDict [("request", PDict [("methods", PList [PStr "GET"])])])
    Ex.action true (World (Ex.store [Ex.rule "a" Ex.url 5]) [])
  = (Raise (KeyError "url"), World (Ex.store [Ex.rule "a" Ex.url 5]) []).
Proof.
  apply (proj2 (no_url_no_request Ex.api (PStr "login") (PBool false)
                  (PInt 60) (PInt 60)
                  (PDict [("request", PDict [("methods", PList [PStr "GET"])])])
                  Ex.action true (KeyError "url")
                  (World (Ex.store [Ex.rule "a" Ex.url 5]) []) eq_refl)).
Defined.

(** X8.  When the list request raises, [create_ratelimit] ends with that
    exception, whatever [update] is: the list request is the only request
    sent, so nothing is created or updated on a zone whose rules could not
    be read. *)
Theorem list_failure_is_fatal
    {St : Type} `{CF : CloudFlare St} (self : CF_API)
    (description disabled threshold period match_ action url : pyval)
    (update : bool) (e : exn) (s s1 : St) :
  desired_url match_ = Ok url ->
  rate_limits_get (cf self) (zoneid self) s = (Raise e, s1) ->
  run (create_ratelimit self description disabled threshold period match_
         action update) s
  = (Raise e, World s1 [RateLimitsGet (zoneid self)]).
Proof.
  intros Hurl Hget. unfold run.
  now rewrite (create_ratelimit_list_raises self _ _ _ _ _ _ update url
                 s s1 [] e Hurl Hget).
Qed.

Lemma list_failure_is_fatal_witness :
  run (create_ratelimit Ex.api (PStr "login") (PBool false) (PInt 60)
         (PInt 60) (Ex.match_for Ex.url) Ex.action false)
    [Raise (CloudFlareAPIError "Authentication error")]
  = (Raise (CloudFlareAPIError "Authentication error"),
     World [] [RateLimitsGet (PStr "zone-1")]).
Proof.
  refine (list_failure_is_fatal Ex.api (PStr "login") (PBool false) (PInt 60)
            (PInt 60) (Ex.match_for Ex.url) Ex.action (PStr Ex.url) false
            (CloudFlareAPIError "Authentication error")
            [Raise (CloudFlareAPIError "Authentication error")] [] _ _);
    reflexivity.
Defined.

(** *** The whole of main *)

Lemma valid_in_range (p : params) (zs : list Z) :
  valid p zs -> threshold_out p = false /\ period_out p = false.
Proof.
  unfold valid, threshold_out, period_out, THRESHOLD_MIN, THRESHOLD_MAX,
    PERIOD_MIN, PERIOD_MAX.
  intros (_ & Ht & Hp). split; apply orb_false_iff; split;
    try (apply Z.ltb_ge; lia); rewrite Z.gtb_ltb; apply Z.ltb_ge; lia.
Qed.

Lemma main_valid {St : Type} `{CF : CloudFlare St} (p : params)
    (zs : list Z) (w : world) :
  valid p zs ->
  main true p w = meat_and_potatoes p (build_match p zs) (build_action p) w.
Proof.
  intros Hv. destruct (valid_in_range p zs Hv) as [Ht Hp].
  destruct Hv as (Hs & _). now apply main_in_range.
Qed.

Lemma CF_API_init_found
    {St : Type} `{CF : CloudFlare St} (zone : string)
    (email api : option string) (z zid : pyval) (rest : list pyval)
    (s s1 : St) (t : list call) :
  zones_get (make_client email api) zone s = (Ok (z :: rest), s1) ->
  getitem z "id" = Ok zid ->
  CF_API_init zone email api (World s t)
  = (Ok {| cf := make_client email api; zoneid := zid |},
     World s1 (t ++ [ZonesGet zone])).
Proof.
  intros Hz Hid.
  unfold CF_API_init, bind, try_except, request, lift, ret.
  cbn [remote trace]. rewrite Hz. cbn [first_item]. now rewrite Hid.
Qed.

Lemma CF_API_init_no_id
    {St : Type} `{CF : CloudFlare St} (zone : string)
    (email api : option string) (z : pyval) (rest : list pyval) (e : exn)
    (s s1 : St) (t : list call) :
  zones_get (make_client email api) zone s = (Ok (z :: rest), s1) ->
  getitem z "id" = Raise e ->
  CF_API_init zone email api (World s t)
  = (Raise e, World s1 (t ++ [ZonesGet zone])).
Proof.
  intros Hz Hid.
  unfold CF_API_init, bind, try_except, request, lift, ret.
  cbn [remote trace]. rewrite Hz. cbn [first_item]. rewrite Hid.
  destruct (getitem_raises _ _ _ Hid) as [-> | ->]; reflexivity.
Qed.

Lemma CF_API_init_api_error
    {St : Type} `{CF : CloudFlare St} (zone : string)
    (email api : option string) (msg : string) (s s1 : St) (t : list call) :
  zones_get (make_client email api) zone s
  = (Raise (CloudFlareAPIError msg), s1) ->
  CF_API_init zone email api (World s t)
  = (Raise (CloudFlareAPIError msg), World s1 (t ++ [ZonesGet zone])).
Proof.
  intros Hz.
  unfold CF_API_init, bind, try_except, request, lift, ret.
  cbn [remote trace]. now rewrite Hz.
Qed.

(** The block of [main] once the zone is found: [create_ratelimit] runs
    next and its outcome is reported. *)
Lemma meat_found
    {St : Type} `{CF : CloudFlare St} (p : params) (match_ action : pyval)
    (z zid : pyval) (rest : list pyval) (s s1 : St) (t : list call) :
  zones_get (make_client (account_email p) (account_api_token p))
    (zone_identifier p) s = (Ok (z :: rest), s1) ->
  getitem z "id" = Ok zid ->
  meat_and_potatoes p match_ action (World s t)
  = (Raise (report
              (fst (create_ratelimit (api_of p zid) (PStr (description p))
                      (PBool (disabled p)) (PInt (threshold p))
                      (PInt (period p)) match_ action true
                      (World s1 (t ++ [ZonesGet (zone_identifier p)]))))),
     snd (create_ratelimit (api_of p zid) (PStr (description p))
            (PBool (disabled p)) (PInt (threshold p))
            (PInt (period p)) match_ action true
            (World s1 (t ++ [ZonesGet (zone_identifier p)])))).
Proof.
  intros Hz Hid.
  unfold meat_and_potatoes, try_except, bind.
  rewrite (CF_API_init_found _ _ _ z zid rest s s1 t Hz Hid).
  fold (api_of p zid).
  destruct (create_ratelimit (api_of p zid) _ _ _ _ match_ action true _)
    as [[v | e] w2]; cbn [fst snd report].
  - unfold when, exit_json, raise, ret.
    destruct (truthy v); reflexivity.
  - destruct e; reflexivity.
Qed.

(** [main] once the checks are passed and the zone is found. *)
Lemma main_after_lookup
    {St : Type} `{CF : CloudFlare St} (p : params) (zs : list Z)
    (z zid : pyval) (rest : list pyval) (s s1 : St)
    (r : result pyval) (w2 : world) :
  valid p zs ->
  zones_get (make_client (account_email p) (account_api_token p))
    (zone_identifier p) s = (Ok (z :: rest), s1) ->
  getitem z "id" = Ok zid ->
  create_ratelimit (api_of p zid) (PStr (description p))
    (PBool (disabled p)) (PInt (threshold p)) (PInt (period p))
    (build_match p zs) (build_action p) true
    (World s1 [ZonesGet (zone_identifier p)]) = (r, w2) ->
  run (main true p) s = (Raise (report r), w2).
Proof.
  intros Hv Hz Hid Hrun. unfold run.
  rewrite (main_valid p zs _ Hv).
  rewrite (meat_found p _ _ z zid rest s s1 [] Hz Hid).
  cbn [app]. now rewrite Hrun.
Qed.

(** X9.  For parameters that pass the checks and a zone that is found (the
    lookup answers a list whose first zone has an id), [main] is the zone
    lookup followed by [create_ratelimit] on that zone id with
    [update=True], and it reports the outcome: a true return value as
    [changed=True] with the value as results, a false one as
    [changed=False]; a [CloudFlareAPIError] as the failure "Errr ..."; a
    [UserWarning] as "Parameter issue, ..."; any other exception (the
    [KeyError] of a listed rule that lacks a field among them) is not
    handled and ends the module as it is. *)
Theorem main_reports_reconciliation
    {St : Type} `{CF : CloudFlare St} (p : params) (zs : list Z)
    (z zid : pyval) (rest : list pyval) (s s1 : St)
    (r : result pyval) (w2 : world) :
  valid p zs ->
  zones_get (make_client (account_email p) (account_api_token p))
    (zone_identifier p) s = (Ok (z :: rest), s1) ->
  getitem z "id" = Ok zid ->
  create_ratelimit (api_of p zid) (PStr (description p))
    (PBool (disabled p)) (PInt (threshold p)) (PInt (period p))
    (build_match p zs) (build_action p) true
    (World s1 [ZonesGet (zone_identifier p)]) = (r, w2) ->
  run (main true p) s = (Raise (report r), w2).
Proof.
  intros Hv Hz Hid Hrun. unfold run.
  rewrite (main_valid p zs _ Hv).
  rewrite (meat_found p _ _ z zid rest s s1 [] Hz Hid).
  cbn [app]. now rewrite Hrun.
Qed.

Lemma main_reports_reconciliation_witness :
  run (main true (Ex.params_with 60 60 [PStr "401"]))
    (Ex.store [Ex.rule_without_threshold "a" Ex.url])
  = (Raise (KeyError "threshold"),
     World (Ex.store [Ex.rule_without_threshold "a" Ex.url])
       [ZonesGet "example.com"; RateLimitsGet (PStr "zone-1")]).
Proof.
  refine (main_reports_reconciliation (Ex.params_with 60 60 [PStr "401"])
            [401] Ex.zone (PStr "zone-1") []
            (Ex.store [Ex.rule_without_threshold "a" Ex.url])
            (Ex.store [Ex.rule_without_threshold "a" Ex.url])
            (Raise (KeyError "threshold")) _ _ _ _ _).
  - unfold valid. simpl. repeat split; lia.
  - reflexivity.
  - reflexivity.
  - reflexivity.
Defined.

Lemma build_match_url (p : params) (zs : list Z) :
  desired_url (build_match p zs) = Ok (PStr (match_url p)).
Proof. reflexivity. Qed.

(** X10.  A change can go unreported.  The parameters pass the checks, the
    zone is found, no listed rule is on the wanted URL, and the service
    answers the create with a false value (an empty dict, say): [main] has
    sent the create and exits with [changed=False], as if nothing had been
    done. *)
Theorem false_answer_is_reported_unchanged
    {St : Type} `{CF : CloudFlare St} (p : params) (zs : list Z)
    (z zid v : pyval) (rest limits : list pyval) (s s1 s2 s3 : St) :
  valid p zs ->
  zones_get (make_client (account_email p) (account_api_token p))
    (zone_identifier p) s = (Ok (z :: rest), s1) ->
  getitem z "id" = Ok zid ->
  rate_limits_get (cf (api_of p zid)) zid s1 = (Ok limits, s2) ->
  forallb (other_url (PStr (match_url p))) limits = true ->
  rate_limits_post (cf (api_of p zid)) zid (data_of p zs) s2 = (Ok v, s3) ->
  truthy v = false ->
  run (main true p) s
  = (Raise (SystemExit (ExitJson false None)),
     World s3 [ZonesGet (zone_identifier p); RateLimitsGet zid;
               RateLimitsPost zid (data_of p zs)]).
Proof.
  intros Hv Hz Hid Hget Hnone Hpost Hfalse.
  rewrite (main_after_lookup p zs z zid rest s s1 (Ok v)
             (World s3 [ZonesGet (zone_identifier p); RateLimitsGet zid;
                        RateLimitsPost zid (data_of p zs)]) Hv Hz Hid).
  - cbn [report]. now rewrite Hfalse.
  - rewrite (create_ratelimit_run (api_of p zid) _ _ _ _ _ _ true
               (PStr (match_url p)) s1 s2 _ limits None
               (build_match_url p zs) Hget
               (search_limits_none _ _ Hnone)).
    unfold after_search, data_of in *. cbn [zoneid api_of cf] in *.
    now rewrite Hpost.
Qed.

Lemma false_answer_is_reported_unchanged_witness :
  run (main true (Ex.params_with 60 60 [PStr "401"]))
    [Ok (PList [Ex.zone]); Ok (PList []); Ok (PDict [])]
  = (Raise (SystemExit (ExitJson false None)),
     World []
       [ZonesGet "example.com"; RateLimitsGet (PStr "zone-1");
        RateLimitsPost (PStr "zone-1")
          (data_of (Ex.params_with 60 60 [PStr "401"]) [401])]).
Proof.
  refine (false_answer_is_reported_unchanged
            (Ex.params_with 60 60 [PStr "401"]) [401] Ex.zone (PStr "zone-1")
            (PDict []) [] []
            [Ok (PList [Ex.zone]); Ok (PList []); Ok (PDict [])]
            [Ok (PList []); Ok (PDict [])] [Ok (PDict [])] []
            _ _ _ _ _ _ _).
  - unfold valid. simpl. repeat split; lia.
  - reflexivity.
  - reflexivity.
  - reflexivity.
  - reflexivity.
  - reflexivity.
  - reflexivity.
Defined.

(** X11.  An error of the API during the zone lookup: when [zones.get]
    raises [CloudFlareAPIError], [main] (its parameters passing the checks)
    fails with "Errr " followed by the error's text, and the zone lookup is
    the only request sent. *)
Theorem zone_lookup_error_is_reported
    {St : Type} `{CF : CloudFlare St} (p : params) (zs : list Z)
    (msg : string) (s s1 : St) :
  valid p zs ->
  zones_get (make_client (account_email p) (account_api_token p))
    (zone_identifier p) s = (Raise (CloudFlareAPIError msg), s1) ->
  run (main true p) s
  = (Raise (SystemExit (FailJson ("Errr " ++ msg))),
     World s1 [ZonesGet (zone_identifier p)]).
Proof.
  intros Hv Hz. unfold run. rewrite (main_valid p zs _ Hv).
  unfold meat_and_potatoes, try_except, bind.
  now rewrite (CF_API_init_api_error _ _ _ msg s s1 [] Hz).
Qed.

Lemma zone_lookup_error_is_reported_witness :
  run (main true (Ex.params_with 60 60 [PStr "401"]))
    [Raise (CloudFlareAPIError "Invalid request headers")]
  = (Raise (SystemExit (FailJson "Errr Invalid request headers")),
     World [] [ZonesGet "example.com"]).
Proof.
  refine (zone_lookup_error_is_reported (Ex.params_with 60 60 [PStr "401"])
            [401] "Invalid request headers"
            [Raise (CloudFlareAPIError "Invalid request headers")] [] _ _).
  - unfold valid. simpl. repeat split; lia.
  - reflexivity.
Defined.

(** X12.  [CF_API] takes the id of the first zone of the lookup's answer,
    whatever zones follow, and keeps the client it made the lookup with; the
    lookup is the only request of the construction. *)
Theorem init_takes_first_zone
    {St : Type} `{CF : CloudFlare St} (zone : string)
    (email api : option string) (z zid : pyval) (rest : list pyval)
    (s s1 : St) :
  zones_get (make_client email api) zone s = (Ok (z :: rest), s1) ->
  getitem z "id" = Ok zid ->
  run (CF_API_init zone email api) s
  = (Ok {| cf := make_client email api; zoneid := zid |},
     World s1 [ZonesGet zone]).
Proof.
  intros Hz Hid. unfold run.
  now rewrite (CF_API_init_found zone email api z zid rest s s1 [] Hz Hid).
Qed.

Lemma init_takes_first_zone_witness :
  run (CF_API_init "example.com" None None)
    [Ok (PList [Ex.zone; PDict [("id", PStr "zone-2")]])]
  = (Ok {| cf := Ambient; zoneid := PStr "zone-1" |},
     World [] [ZonesGet "example.com"]).
Proof.
  refine (init_takes_first_zone "example.com" None None Ex.zone
            (PStr "zone-1") [PDict [("id", PStr "zone-2")]]
            [Ok (PList [Ex.zone; PDict [("id", PStr "zone-2")]])] [] _ _);
    reflexivity.
Defined.

(** X13.  A zone without an id.  When the first zone of the lookup's answer
    has no [id], the construction of [CF_API] raises [KeyError] on [id]
    (or [TypeError] when the zone is not a dict), which the
    [except IndexError] clause does not take; [main] does not handle it
    either and ends with it, having sent the zone lookup only. *)
Theorem zone_without_id_is_not_handled
    {St : Type} `{CF : CloudFlare St} (p : params) (zs : list Z)
    (z : pyval) (rest : list pyval) (e : exn) (s s1 : St) :
  zones_get (make_client (account_email p) (account_api_token p))
    (zone_identifier p) s = (Ok (z :: rest), s1) ->
  getitem z "id" = Raise e ->
  (e = KeyError "id" \/ e = TypeError)
  /\ run (CF_API_init (zone_identifier p) (account_email p)
            (account_api_token p)) s
     = (Raise e, World s1 [ZonesGet (zone_identifier p)])
  /\ (valid p zs ->
      run (main true p) s
      = (Raise e, World s1 [ZonesGet (zone_identifier p)])).
Proof.
  intros Hz Hid. pose proof (getitem_raises _ _ _ Hid) as He.
  split; [ exact He | split ].
  - unfold run.
    now rewrite (CF_API_init_no_id _ _ _ z rest e s s1 [] Hz Hid).
  - intros Hv. unfold run. rewrite (main_valid p zs _ Hv).
    unfold meat_and_potatoes, try_except, bind.
    rewrite (CF_API_init_no_id _ _ _ z rest e s s1 [] Hz Hid).
    destruct He as [-> | ->]; reflexivity.
Qed.

Lemma zone_without_id_is_not_handled_witness :
  run (main true (Ex.params_with 60 60 [PStr "401"]))
    [Ok (PList [PDict [("name", PStr "example.com")]])]
  = (Raise (KeyError "id"), World [] [ZonesGet "example.com"]).
Proof.
  refine (proj2 (proj2 (zone_without_id_is_not_handled
                          (Ex.params_with 60 60 [PStr "401"]) [401]
                          (PDict [("name", PStr "example.com")]) []
                          (KeyError "id")
                          [Ok (PList [PDict [("name", PStr "example.com")]])]
                          [] _ _)) _).
  - reflexivity.
  - reflexivity.
  - unfold valid. simpl. repeat split; lia.
Defined.

(** X14.  Without the CloudFlare package, parameters that pass the checks
    make [main] fail with "cloudflare pip module required" before any
    request. *)
Theorem missing_package_fails_before_any_request
    {St : Type} `{CF : CloudFlare St} (p : params) (zs : list Z) (s : St) :
  valid p zs ->
  run (main false p) s
  = (Raise (SystemExit (FailJson "cloudflare pip module required")),
     World s []).
Proof.
  intros Hv. destruct (valid_in_range p zs Hv) as [Ht Hp].
  destruct Hv as (Hs & _). unfold run, main, bind, lift. rewrite Hs.
  unfold threshold_out in Ht. unfold period_out in Hp. now rewrite Ht, Hp.
Qed.

Lemma missing_package_fails_before_any_request_witness :
  run (main false (Ex.params_with 60 60 [PStr "401"])) (Ex.store [])
  = (Raise (SystemExit (FailJson "cloudflare pip module required")),
     World (Ex.store []) []).
Proof.
  apply (missing_package_fails_before_any_request
           (Ex.params_with 60 60 [PStr "401"]) [401] (Ex.store [])).
  unfold valid. simpl. repeat split; lia.
Defined.


(** *** The requests of main *)

Lemma create_ratelimit_trace
    {St : Type} `{CF : CloudFlare St} (self : CF_API)
    (description disabled threshold period match_ action url : pyval)
    (update : bool) (s : St) (t : list call) :
  desired_url match_ = Ok url ->
  let data := make_data description disabled threshold period match_ action in
  let t' :=
    trace (snd (create_ratelimit self description disabled threshold period
                  match_ action update (World s t))) in
  t' = (t ++ [RateLimitsGet (zoneid self)])%list
  \/ t' = (t ++ [RateLimitsGet (zoneid self);
                 RateLimitsPost (zoneid self) data])%list
  \/ exists id,
       t' = (t ++ [RateLimitsGet (zoneid self);
                   RateLimitsPut (zoneid self) id data])%list.
Proof.
  intros Hurl data t'. unfold t'.
  destruct (rate_limits_get (cf self) (zoneid self) s) as [[limits | e] s1]
    eqn:Hget.
  - destruct (search_limits url limits) as [found | e] eqn:Hs.
    + rewrite (create_ratelimit_run self _ _ _ _ _ _ update url s s1 t
                 limits found Hurl Hget Hs).
      unfold after_search. fold data.
      destruct (rate_limits_post (cf self) (zoneid self) data s1)
        as [res s2].
      assert (Hpost : ((t ++ [RateLimitsGet (zoneid self)])
                         ++ [RateLimitsPost (zoneid self) data])%list
                      = (t ++ [RateLimitsGet (zoneid self);
                               RateLimitsPost (zoneid self) data])%list)
        by now rewrite <- app_assoc.
      destruct found as [r | ];
        [ | right; left; cbn [snd trace]; exact Hpost ].
      destruct (update && truthy r);
        [ | right; left; cbn [snd trace]; exact Hpost ].
      destruct (compare_existing_ratelimit r data) as [[ | ] | e];
        try (left; reflexivity).
      destruct (getitem r "id") as [id | e]; [ | left; reflexivity ].
      destruct (rate_limits_put (cf self) (zoneid self) id data s1)
        as [res' s2'].
      right; right. exists id. cbn [snd trace]. now rewrite <- app_assoc.
    + rewrite (create_ratelimit_search_raises self _ _ _ _ _ _ update url
                 s s1 t limits e Hurl Hget Hs).
      left; reflexivity.
  - rewrite (create_ratelimit_list_raises self _ _ _ _ _ _ update url
               s s1 t e Hurl Hget).
    left; reflexivity.
Qed.

Lemma CF_API_init_trace
    {St : Type} `{CF : CloudFlare St} (zone : string)
    (email api : option string) (s : St) (t : list call) :
  trace (snd (CF_API_init zone email api (World s t)))
  = (t ++ [ZonesGet zone])%list.
Proof.
  unfold CF_API_init, bind, try_except, request, lift, ret, raise.
  cbn [remote trace].
  destruct (zones_get (make_client email api) zone s) as [[zones | e] s1].
  - destruct zones as [ | z rest ]; cbn [first_item]; [ reflexivity | ].
    destruct (getitem z "id") as [zid | e] eqn:Hid; [ reflexivity | ].
    destruct (getitem_raises _ _ _ Hid) as [-> | ->]; reflexivity.
  - destruct e; reflexivity.
Qed.

Ltac pick_shape :=
  first [ left; reflexivity
        | right; left; eexists; reflexivity
        | right; right; do 2 eexists; reflexivity ].

(** X16.  Whatever its parameters, whatever the service holds and answers,
    one run of [main] sends at most three requests, in this order: the zone
    lookup, the list of the zone's rate limits, and one create or one
    update.  It sends no mutating request before the other two, never two
    of them, and none at all when it sends nothing for the zone. *)
Theorem main_sends_at_most_three_requests
    {St : Type} `{CF : CloudFlare St} (HAS_CF : bool) (p : params) (s : St) :
  let t := trace (snd (run (main HAS_CF p) s)) in
  let zone := ZonesGet (zone_identifier p) in
  t = []
  \/ t = [zone]
  \/ exists zid,
       t = [zone; RateLimitsGet zid]
       \/ (exists data, t = [zone; RateLimitsGet zid; RateLimitsPost zid data])
       \/ (exists id data,
              t = [zone; RateLimitsGet zid; RateLimitsPut zid id data]).
Proof.
  intros t zone. unfold t, run, main, bind, lift.
  destruct (sanitize (match_response_status p)) as [zs | e];
    [ | left; reflexivity ].
  unfold when, fail_json, raise, ret.
  destruct ((threshold p <? THRESHOLD_MIN) || (threshold p >? THRESHOLD_MAX));
    [ left; reflexivity | ].
  destruct ((period p <? PERIOD_MIN) || (period p >? PERIOD_MAX));
    [ left; reflexivity | ].
  destruct HAS_CF; cbn [negb]; [ | left; reflexivity ].
  unfold meat_and_potatoes, try_except, bind.
  pose proof (CF_API_init_trace (zone_identifier p) (account_email p)
                (account_api_token p) s []) as Hinit.
  destruct (CF_API_init (zone_identifier p) (account_email p)
              (account_api_token p) (World s [])) as [[api | e] [s1 t1]].
  - cbn [snd trace app] in Hinit. subst t1.
    pose proof (create_ratelimit_trace api (PStr (description p))
                  (PBool (disabled p)) (PInt (threshold p))
                  (PInt (period p)) (build_match p zs) (build_action p)
                  (PStr (match_url p)) true s1 [ZonesGet (zone_identifier p)]
                  (build_match_url p zs)) as Hshape.
    cbv zeta in Hshape.
    destruct (create_ratelimit api (PStr (description p))
                (PBool (disabled p)) (PInt (threshold p)) (PInt (period p))
                (build_match p zs) (build_action p) true
                (World s1 [ZonesGet (zone_identifier p)]))
      as [[v | e] w2].
    + cbn [snd] in Hshape. unfold when, exit_json, raise, ret, bind.
      right; right. exists (zoneid api).
      destruct (truthy v); cbn [negb snd];
        destruct Hshape as [-> | [-> | [id ->]]]; pick_shape.
    + cbn [snd] in Hshape.
      right; right. exists (zoneid api).
      unfold fail_json, raise.
      destruct e; cbn [snd];
        destruct Hshape as [-> | [-> | [id ->]]]; pick_shape.
  - cbn [snd trace app] in Hinit. subst t1.
    right; left. unfold fail_json, raise. destruct e; reflexivity.
Qed.

(** *** Duplicates and second runs of main *)

(** X17.  [main] does not create a second rule on a URL: with parameters
    that pass the checks and a zone that is found, when the list holds a
    rule on the wanted URL (the rules listed before it carrying other URLs),
    the run sends no create, whatever that rule holds and whatever the
    service answers. *)
Theorem main_creates_no_duplicate
    {St : Type} `{CF : CloudFlare St} (p : params) (zs : list Z)
    (z zid r : pyval) (rest pre post : list pyval) (s s1 s2 : St) :
  valid p zs ->
  zones_get (make_client (account_email p) (account_api_token p))
    (zone_identifier p) s = (Ok (z :: rest), s1) ->
  getitem z "id" = Ok zid ->
  rate_limits_get (cf (api_of p zid)) zid s1
  = (Ok (pre ++ r :: post)%list, s2) ->
  forallb (other_url (PStr (match_url p))) pre = true ->
  matches_url (PStr (match_url p)) r = true ->
  count is_create (trace (snd (run (main true p) s))) = 0%nat.
Proof.
  intros Hv Hz Hid Hget Hpre Hr.
  rewrite (main_after_lookup p zs z zid rest s s1 _ _ Hv Hz Hid
             (surjective_pairing _)).
  cbn [snd].
  rewrite (create_ratelimit_run (api_of p zid) _ _ _ _ _ _ true
             (PStr (match_url p)) s1 s2 _ _ (Some r)
             (build_match_url p zs) Hget
             (search_limits_first _ _ _ _ Hpre Hr)).
  unfold after_search.
  rewrite (has_url_truthy r (matches_url_has_url _ _ Hr)). cbn [andb].
  destruct (compare_existing_ratelimit r _) as [[ | ] | e];
    try reflexivity.
  destruct (getitem r "id") as [id | e]; [ | reflexivity ].
  destruct (rate_limits_put _ _ id _ s2) as [res s3]. reflexivity.
Qed.

Lemma main_creates_no_duplicate_witness :
  count is_create
    (trace (snd (run (main true (Ex.params_with 60 60 [PStr "401"]))
                   (Ex.store [Ex.rule "a" Ex.url 5; Ex.rule "b" Ex.url 7]))))
  = 0%nat.
Proof.
  refine (main_creates_no_duplicate (Ex.params_with 60 60 [PStr "401"]) [401]
            Ex.zone (PStr "zone-1") (Ex.rule "a" Ex.url 5) [] []
            [Ex.rule "b" Ex.url 7]
            (Ex.store [Ex.rule "a" Ex.url 5; Ex.rule "b" Ex.url 7])
            (Ex.store [Ex.rule "a" Ex.url 5; Ex.rule "b" Ex.url 7])
            (Ex.store [Ex.rule "a" Ex.url 5; Ex.rule "b" Ex.url 7])
            _ _ _ _ _ _).
  - unfold valid. simpl. repeat split; lia.
  - reflexivity.
  - reflexivity.
  - reflexivity.
  - reflexivity.
  - reflexivity.
Defined.

(** A second run of [create_ratelimit] against a service that records
    faithfully finds nothing to do. *)
Lemma rerun_is_no_op
    {St : Type} `{CF : CloudFlare St} (self : CF_API)
    (description disabled threshold period match_ action url v : pyval)
    (w0 w1 : world) :
  faithful self ->
  desired_url match_ = Ok url ->
  create_ratelimit self description disabled threshold period match_ action
    true w0 = (Ok v, w1) ->
  forall t',
    create_ratelimit self description disabled threshold period match_ action
      true (World (remote w1) t')
    = (Ok (PBool false),
       World (remote w1) (t' ++ [RateLimitsGet (zoneid self)])).
Proof.
  intros Hf Hurl Hfirst t'. destruct w0 as [s t].
  set (data := make_data description disabled threshold period match_ action)
    in *.
  destruct (rate_limits_get (cf self) (zoneid self) s) as [res s'] eqn:Hget.
  pose proof (list_reads self Hf _ _ _ Hget) as ->.
  destruct res as [limits | e].
  2: { rewrite (create_ratelimit_list_raises self _ _ _ _ _ _ true url
                  s s t e Hurl Hget) in Hfirst. discriminate. }
  destruct (search_limits url limits) as [found | e] eqn:Hs.
  2: { rewrite (create_ratelimit_search_raises self _ _ _ _ _ _ true url
                  s s t limits e Hurl Hget Hs) in Hfirst. discriminate. }
  rewrite (create_ratelimit_run self _ _ _ _ _ _ true url s s t limits found
             Hurl Hget Hs) in Hfirst.
  unfold after_search in Hfirst. fold data in Hfirst.
  destruct found as [r | ].
  - destruct (search_limits_some_inv _ _ _ Hs)
      as (pre & post & -> & Hpre & Hr).
    pose proof (has_url_truthy r (matches_url_has_url _ _ Hr)) as Htrue.
    rewrite Htrue in Hfirst. cbn [andb] in Hfirst.
    destruct (compare_existing_ratelimit r data) as [[ | ] | e] eqn:Hcmp.
    + inversion Hfirst; subst. cbn [remote trace].
      rewrite (create_ratelimit_run self _ _ _ _ _ _ true url s s _ _
                 (Some r) Hurl Hget Hs).
      unfold after_search. fold data. rewrite Htrue. cbn [andb].
      now rewrite Hcmp.
    + destruct (getitem r "id") as [id | e] eqn:Hid; [ | discriminate ].
      destruct (rate_limits_put (cf self) (zoneid self) id data s)
        as [res s2] eqn:Hput.
      inversion Hfirst; subst. cbn [remote trace].
      destruct (update_records self Hf _ _ _ _ _ _ Hput Hget)
        as (limits' & Hall & Hget2).
      assert (Hhas : has_id id r = true)
        by (unfold has_id; rewrite Hid; apply py_eq_refl).
      destruct (updated_list_first id data url r pre post limits' Hall Hpre
                  Hhas)
        as (pre' & r' & post' & -> & Hpre' & Hrec).
      destruct (records_matches _ _ _ _ _ _ url r' Hurl Hrec) as [Hr' Heq].
      apply (create_ratelimit_no_op self _ _ _ _ _ _ url r' pre' post' s2 s2
               _ Hurl Hget2 Hpre' Hr' Heq).
    + discriminate.
  - destruct (rate_limits_post (cf self) (zoneid self) data s)
      as [res s2] eqn:Hpost.
    inversion Hfirst; subst. cbn [remote trace].
    destruct (create_records self Hf _ _ _ _ _ Hpost Hget)
      as (pre & post & r & -> & Hrec & Hget2).
    destruct (records_matches _ _ _ _ _ _ url r Hurl Hrec) as [Hr Heq].
    apply (create_ratelimit_no_op self _ _ _ _ _ _ url r pre post s2 s2 _
             Hurl Hget2
             (forallb_app_l _ _ _ (search_limits_none_inv _ _ Hs)) Hr Heq).
Qed.

(** X18.  The module is idempotent.  The parameters pass the checks; the
    zone lookup leaves the service as it is and finds the zone under the same
    id before and after; the service records faithfully.  When a first run of
    [main] got through [create_ratelimit] (it exited with [changed] true or
    false), a second run with the same parameters sends the zone lookup and
    the list request, nothing else, and exits with [changed=False]. *)
Theorem second_play_is_unchanged
    {St : Type} `{CF : CloudFlare St} (p : params) (zs : list Z)
    (z z' zid v : pyval) (rest rest' : list pyval) (s : St) (w1 : world) :
  valid p zs ->
  faithful (api_of p zid) ->
  zones_get (make_client (account_email p) (account_api_token p))
    (zone_identifier p) s = (Ok (z :: rest), s) ->
  getitem z "id" = Ok zid ->
  zones_get (make_client (account_email p) (account_api_token p))
    (zone_identifier p) (remote w1) = (Ok (z' :: rest'), remote w1) ->
  getitem z' "id" = Ok zid ->
  create_ratelimit (api_of p zid) (PStr (description p))
    (PBool (disabled p)) (PInt (threshold p)) (PInt (period p))
    (build_match p zs) (build_action p) true
    (World s [ZonesGet (zone_identifier p)]) = (Ok v, w1) ->
  run (main true p) s
  = (Raise (SystemExit (ExitJson (truthy v)
                          (if truthy v then Some v else None))), w1)
  /\ main true p w1
     = (Raise (SystemExit (ExitJson false None)),
        World (remote w1)
          (trace w1 ++ [ZonesGet (zone_identifier p); RateLimitsGet zid])).
Proof.
  intros Hv Hf Hz Hid Hz' Hid' Hfirst. split.
  - now rewrite (main_after_lookup p zs z zid rest s s (Ok v) w1
                   Hv Hz Hid Hfirst).
  - pose proof (rerun_is_no_op (api_of p zid) _ _ _ _ _ _
                  (PStr (match_url p)) v _ _ Hf (build_match_url p zs)
                  Hfirst (trace w1 ++ [ZonesGet (zone_identifier p)])%list)
      as Hsecond.
    destruct w1 as [s1 t1]. cbn [remote trace zoneid api_of] in *.
    rewrite (main_valid p zs _ Hv).
    rewrite (meat_found p _ _ z' zid rest' s1 s1 t1 Hz' Hid').
    rewrite Hsecond. cbn [fst snd report truthy].
    now rewrite <- app_assoc.
Qed.

Lemma second_play_is_unchanged_witness :
  main true (Ex.params_with 60 60 [PStr "401"])
    (World {| rec_zones := [Ex.zone];
              rec_limits := [stored (PStr "a") Ex.data];
              rec_next := 100 |}
       [ZonesGet "example.com"; RateLimitsGet (PStr "zone-1");
        RateLimitsPut (PStr "zone-1") (PStr "a") Ex.data])
  = (Raise (SystemExit (ExitJson false None)),
     World {| rec_zones := [Ex.zone];
              rec_limits := [stored (PStr "a") Ex.data];
              rec_next := 100 |}
       [ZonesGet "example.com"; RateLimitsGet (PStr "zone-1");
        RateLimitsPut (PStr "zone-1") (PStr "a") Ex.data;
        ZonesGet "example.com"; RateLimitsGet (PStr "zone-1")]).
Proof.
  refine (proj2 (second_play_is_unchanged
                   (Ex.params_with 60 60 [PStr "401"]) [401]
                   Ex.zone Ex.zone (PStr "zone-1")
                   (stored (PStr "a") Ex.data) [] []
                   (Ex.store [Ex.rule "a" Ex.url 5])
                   (World {| rec_zones := [Ex.zone];
                             rec_limits := [stored (PStr "a") Ex.data];
                             rec_next := 100 |}
                      [ZonesGet "example.com"; RateLimitsGet (PStr "zone-1");
                       RateLimitsPut (PStr "zone-1") (PStr "a") Ex.data])
                   _ (recording_faithful _) _ _ _ _ _)).
  - unfold valid. simpl. repeat split; lia.
  - reflexivity.
  - reflexivity.
  - reflexivity.
  - reflexivity.
  - reflexivity.
Defined.

(** *** Credentials *)

(** X19.  The client is built from the e-mail and the token only when both
    are given and not empty; when either is missing or empty, the client is
    built from the ambient configuration and the one that was given is not
    used. *)
Theorem credentials_need_both (email api : option string) :
  (forall e a,
      email = Some e -> api = Some a -> e <> "" -> a <> "" ->
      make_client email api = WithCredentials e a)
  /\ (email = None \/ email = Some "" \/ api = None \/ api = Some "" ->
      make_client email api = Ambient).
Proof.
  unfold make_client, both_given. split.
  - intros e a -> -> He Ha. cbn [truthy].
    destruct (String.eqb_spec e ""); [ contradiction | ].
    destruct (String.eqb_spec a ""); [ contradiction | ]. reflexivity.
  - intros [-> | [-> | [-> | ->]]].
    + reflexivity.
    + destruct api; reflexivity.
    + destruct email; reflexivity.
    + destruct email as [e | ]; [ | reflexivity ].
      cbn [truthy]. now rewrite andb_false_r.
Qed.

Lemma credentials_need_both_witness :
  make_client (Some "me@example.com") (Some "") = Ambient
  /\ make_client (Some "me@example.com") (Some "0123")
     = WithCredentials "me@example.com" "0123".
Proof.
  split.
  - apply (proj2 (credentials_need_both (Some "me@example.com") (Some ""))).
    right; right; right; reflexivity.
  - apply (proj1 (credentials_need_both (Some "me@example.com")
                    (Some "0123")) _ _ eq_refl eq_refl); discriminate.
Defined.

(** *** Parameters within the bounds *)

(** Parameters that pass the checks lead to the zone lookup. *)
Lemma valid_reaches_lookup
    {St : Type} `{CF : CloudFlare St} (p : params) (zs : list Z) (s : St) :
  valid p zs ->
  exists rest,
    trace (snd (run (main true p) s)) = ZonesGet (zone_identifier p) :: rest.
Proof.
  intros Hv. unfold run. rewrite (main_valid p zs _ Hv).
  unfold meat_and_potatoes, try_except, bind.
  pose proof (CF_API_init_trace (zone_identifier p) (account_email p)
                (account_api_token p) s []) as Hinit.
  destruct (CF_API_init (zone_identifier p) (account_email p)
              (account_api_token p) (World s [])) as [[api | e] [s1 t1]].
  - cbn [snd trace app] in Hinit. subst t1.
    pose proof (create_ratelimit_trace api (PStr (description p))
                  (PBool (disabled p)) (PInt (threshold p))
                  (PInt (period p)) (build_match p zs) (build_action p)
                  (PStr (match_url p)) true s1
                  [ZonesGet (zone_identifier p)] (build_match_url p zs))
      as Hcr.
    cbv zeta in Hcr.
    destruct (create_ratelimit api (PStr (description p))
                (PBool (disabled p)) (PInt (threshold p)) (PInt (period p))
                (build_match p zs) (build_action p) true
                (World s1 [ZonesGet (zone_identifier p)]))
      as [[v | e] w2]; cbn [snd] in Hcr.
    + unfold when, exit_json, raise, ret, bind.
      destruct (truthy v); cbn [negb snd];
        destruct Hcr as [-> | [-> | [id ->]]]; eexists; reflexivity.
    + unfold fail_json, raise.
      destruct e; cbn [snd];
        destruct Hcr as [-> | [-> | [id ->]]]; eexists; reflexivity.
  - cbn [snd trace app] in Hinit. subst t1.
    unfold fail_json, raise. destruct e; eexists; reflexivity.
Qed.

(** X20.  The bounds are inclusive: with status codes that convert, a
    threshold from 2 to 1000000 and a period from 2 to 86400, both ends
    included, [main] goes on to the service, and the first request it sends
    is the zone lookup. *)
Theorem in_range_reaches_zone_lookup
    {St : Type} `{CF : CloudFlare St} (p : params) (zs : list Z) (s : St) :
  valid p zs ->
  exists rest,
    trace (snd (run (main true p) s)) = ZonesGet (zone_identifier p) :: rest.
Proof.
  exact (valid_reaches_lookup p zs s).
Qed.

Lemma in_range_reaches_zone_lookup_witness :
  (exists rest,
      trace (snd (run (main true (Ex.params_with 2 86400 [PStr "401"]))
                    (Ex.store [])))
      = ZonesGet "example.com" :: rest)
  /\ (exists rest,
         trace (snd (run (main true (Ex.params_with 1000000 2 [PStr "401"]))
                       (Ex.store [])))
         = ZonesGet "example.com" :: rest).
Proof.
  split.
  - apply (in_range_reaches_zone_lookup
             (Ex.params_with 2 86400 [PStr "401"]) [401] (Ex.store [])).
    unfold valid. simpl. repeat split; lia.
  - apply (in_range_reaches_zone_lookup
             (Ex.params_with 1000000 2 [PStr "401"]) [401] (Ex.store [])).
    unfold valid. simpl. repeat split; lia.
Defined.

(** X21.  A zone whose rules cannot be listed is left alone: when the
    parameters pass the checks, the zone is found and the list request
    raises [CloudFlareAPIError], [main] fails with "Errr " followed by the
    error's text, having sent the zone lookup and the list request only. *)
Theorem list_error_is_reported
    {St : Type} `{CF : CloudFlare St} (p : params) (zs : list Z)
    (z zid : pyval) (rest : list pyval) (msg : string) (s s1 s2 : St) :
  valid p zs ->
  zones_get (make_client (account_email p) (account_api_token p))
    (zone_identifier p) s = (Ok (z :: rest), s1) ->
  getitem z "id" = Ok zid ->
  rate_limits_get (cf (api_of p zid)) zid s1
  = (Raise (CloudFlareAPIError msg), s2) ->
  run (main true p) s
  = (Raise (SystemExit (FailJson ("Errr " ++ msg))),
     World s2 [ZonesGet (zone_identifier p); RateLimitsGet zid]).
Proof.
  intros Hv Hz Hid Hget.
  apply (main_after_lookup p zs z zid rest s s1
           (Raise (CloudFlareAPIError msg)) _ Hv Hz Hid).
  exact (create_ratelimit_list_raises (api_of p zid) (PStr (description p))
           (PBool (disabled p)) (PInt (threshold p)) (PInt (period p))
           (build_match p zs) (build_action p) true
           (PStr (match_url p)) s1 s2 [ZonesGet (zone_identifier p)]
           (CloudFlareAPIError msg) (build_match_url p zs) Hget).
Qed.

Lemma list_error_is_reported_witness :
  run (main true (Ex.params_with 60 60 [PStr "401"]))
    [Ok (PList [Ex.zone]); Raise (CloudFlareAPIError "Authentication error")]
  = (Raise (SystemExit (FailJson "Errr Authentication error")),
     World [] [ZonesGet "example.com"; RateLimitsGet (PStr "zone-1")]).
Proof.
  refine (list_error_is_reported (Ex.params_with 60 60 [PStr "401"]) [401]
            Ex.zone (PStr "zone-1") [] "Authentication error"
            [Ok (PList [Ex.zone]);
             Raise (CloudFlareAPIError "Authentication error")]
            [Raise (CloudFlareAPIError "Authentication error")] []
            _ _ _ _).
  - unfold valid. simpl. repeat split; lia.
  - reflexivity.
  - reflexivity.
  - reflexivity.
Defined.

(** *** Defaults *)

(** X22.  The defaults of the argument spec pass the module's own checks:
    with the zone and the URL given and nothing else, [main] goes on to the
    zone lookup, made with the ambient configuration, and the rule it asks
    for is the default one: threshold 60 over 60 seconds on responses with
    status 401, whatever the zone and the URL. *)
Theorem defaults_pass_the_checks
    {St : Type} `{CF : CloudFlare St} (zone url : string) (s : St) :
  valid (default_params zone url) [401]
  /\ make_client (account_email (default_params zone url))
       (account_api_token (default_params zone url)) = Ambient
  /\ (exists rest,
         trace (snd (run (main true (default_params zone url)) s))
         = ZonesGet zone :: rest)
  /\ getitem (data_of (default_params zone url) [401]) "threshold"
     = Ok (PInt 60)
  /\ getitem (data_of (default_params zone url) [401]) "period"
     = Ok (PInt 60)
  /\ desired_url (build_match (default_params zone url) [401])
     = Ok (PStr url).
Proof.
  assert (Hv : valid (default_params zone url) [401]).
  { unfold valid. cbn. split; [ reflexivity | lia ]. }
  split; [ exact Hv | ].
  split; [ reflexivity | ].
  split; [ exact (valid_reaches_lookup (default_params zone url) [401] s Hv)
         | ].
  split; [ reflexivity | split; reflexivity ].
Qed.
